(** * restapi: response construction for REST endpoint functions

    A shallow embedding of the Go package [restapi] (content negotiation,
    the Result / Error / Problem response models, the type-directed
    dispatcher and the response writer), followed by the properties that
    are proved about it.

    Conventions of the embedding:
    - Go [int] is [Z]; no arithmetic is performed on status codes, only
      comparisons, so no wrap-around arises.
    - Go [string] is [string]; [[]byte] is [list Byte.byte], a nil slice
      and an empty one both being the empty list.
    - a pointer that may be nil is an [option]; a nil map is [None].
    - [map[string]any] is [gmap string any]; the order in which a
      [for ... range] loop visits a map is a parameter of the model.
    - a Go function that may panic returns an [outcome]; a function that
      also calls a marshaller, the diagnostic hook or the transport runs
      in the monad [M], which records those calls in order.
    - a struct behind a pointer that a function assigns to is passed in
      and handed back (state passing).
    - the [http.ResponseWriter] is that of net/http and of httptest: its
      [WriteHeader] panics on a status code outside 100..999, and its
      [Write] may return an error, which is a parameter.
    - the function variables of the package ([makeErrorResponse],
      [newRequest], ...) are modelled by their initial values; the
      extension points [ProjectError] and [nowUTC], and the standard
      library functions the package calls, are parameters.
    - fields keep their Go names; where two structs share a field name the
      name is prefixed ([Error_statusCode], [Result_statusCode], [ie_Err],
      [ei_Err], ...), and [Type], [Status] and [Instance] of a Problem carry
      a trailing underscore. *)

From Stdlib Require Import ZArith String Ascii List DecimalString Lia.
From stdpp Require Import gmap strings list fin_maps sorting.

Set Warnings "-register-all".

Local Open Scope string_scope.
Local Open Scope Z_scope.

(** ** Go runtime and standard library *)

(** [%d] of an [int]. *)
Definition itoa (n : Z) : string := NilZero.string_of_int (Z.to_int n).

(** [strings.Join]. *)
Fixpoint strings_Join (elems : list string) (sep : string) : string :=
  match elems with
  | [] => ""
  | [s] => s
  | s :: rest => s ++ sep ++ strings_Join rest sep
  end.

(** The conversion [[]byte(s)]. *)
Definition bytes_of (s : string) : list Byte.byte := list_byte_of_string s.

(** [s] occurs inside [t]. *)
Definition contains (t s : string) : Prop :=
  exists pre post : string, t = pre ++ s ++ post.

(** Values of the interface type [error].  [errors_New] stands for any
    error that is observed only through its text; [fmt_Errorf] carries the
    formatted text and the operands of its [%w] verbs; [errors_Join] is the
    composite built by [errors.Join]. *)
Inductive error : Type :=
| errors_New (msg : string)
| fmt_Errorf (msg : string) (wrapped : list error)
| errors_Join (errs : list error).

(** The method [Error()] of an [error]. *)
Fixpoint error_Error (e : error) : string :=
  match e with
  | errors_New msg => msg
  | fmt_Errorf msg _ => msg
  | errors_Join errs =>
      strings_Join
        ((fix texts (l : list error) : list string :=
            match l with
            | [] => []
            | x :: l' => error_Error x :: texts l'
            end) errs)
        (String (ascii_of_nat 10) "")
  end.

(** [errors.Is] against a sentinel created by [errors.New], compared by
    its text. *)
Fixpoint errors_Is (e : error) (target : string) : bool :=
  match e with
  | errors_New msg => String.eqb msg target
  | fmt_Errorf _ wrapped =>
      (fix any_is (l : list error) : bool :=
         match l with
         | [] => false
         | x :: l' => errors_Is x target || any_is l'
         end) wrapped
  | errors_Join errs =>
      (fix any_is (l : list error) : bool :=
         match l with
         | [] => false
         | x :: l' => errors_Is x target || any_is l'
         end) errs
  end.

(** The panic raised by dereferencing a nil pointer. *)
Definition nil_dereference : error :=
  errors_New "runtime error: invalid memory address or nil pointer dereference".

(** The panic raised by a failed type assertion to [[]byte]; the run-time
    text also names the dynamic type found, which is left out. *)
Definition bad_type_assertion : error :=
  errors_New "interface conversion: interface {} is not []uint8".

(** [time.Time], as an instant; [0] is the zero [Time]. *)
Definition time_Time : Type := Z.

(** A type with a Go zero value. *)
Class Zero (T : Type) : Type := zero : T.
#[global] Instance Zero_int : Zero Z := 0.
#[global] Instance Zero_string : Zero string := "".

(** [http.StatusText]. *)
Definition http_StatusText (code : Z) : string :=
  match code with
  | 100 => "Continue"
  | 101 => "Switching Protocols"
  | 102 => "Processing"
  | 103 => "Early Hints"
  | 200 => "OK"
  | 201 => "Created"
  | 202 => "Accepted"
  | 203 => "Non-Authoritative Information"
  | 204 => "No Content"
  | 205 => "Reset Content"
  | 206 => "Partial Content"
  | 207 => "Multi-Status"
  | 208 => "Already Reported"
  | 226 => "IM Used"
  | 300 => "Multiple Choices"
  | 301 => "Moved Permanently"
  | 302 => "Found"
  | 303 => "See Other"
  | 304 => "Not Modified"
  | 305 => "Use Proxy"
  | 307 => "Temporary Redirect"
  | 308 => "Permanent Redirect"
  | 400 => "Bad Request"
  | 401 => "Unauthorized"
  | 402 => "Payment Required"
  | 403 => "Forbidden"
  | 404 => "Not Found"
  | 405 => "Method Not Allowed"
  | 406 => "Not Acceptable"
  | 407 => "Proxy Authentication Required"
  | 408 => "Request Timeout"
  | 409 => "Conflict"
  | 410 => "Gone"
  | 411 => "Length Required"
  | 412 => "Precondition Failed"
  | 413 => "Request Entity Too Large"
  | 414 => "Request URI Too Long"
  | 415 => "Unsupported Media Type"
  | 416 => "Requested Range Not Satisfiable"
  | 417 => "Expectation Failed"
  | 418 => "I'm a teapot"
  | 421 => "Misdirected Request"
  | 422 => "Unprocessable Entity"
  | 423 => "Locked"
  | 424 => "Failed Dependency"
  | 425 => "Too Early"
  | 426 => "Upgrade Required"
  | 428 => "Precondition Required"
  | 429 => "Too Many Requests"
  | 431 => "Request Header Fields Too Large"
  | 451 => "Unavailable For Legal Reasons"
  | 500 => "Internal Server Error"
  | 501 => "Not Implemented"
  | 502 => "Bad Gateway"
  | 503 => "Service Unavailable"
  | 504 => "Gateway Timeout"
  | 505 => "HTTP Version Not Supported"
  | 506 => "Variant Also Negotiates"
  | 507 => "Insufficient Storage"
  | 508 => "Loop Detected"
  | 510 => "Not Extended"
  | 511 => "Network Authentication Required"
  | _ => ""
  end.

Definition http_StatusOK : Z := 200.
Definition http_StatusCreated : Z := 201.
Definition http_StatusAccepted : Z := 202.
Definition http_StatusNoContent : Z := 204.
Definition http_StatusBadRequest : Z := 400.
Definition http_StatusUnauthorized : Z := 401.
Definition http_StatusForbidden : Z := 403.
Definition http_StatusNotFound : Z := 404.
Definition http_StatusInternalServerError : Z := 500.
Definition http_StatusNotImplemented : Z := 501.

(** [url.URL], the fields the package reads. *)
Record URL : Type := mkURL {
  URL_Scheme : string;
  URL_Host : string;
  URL_Path : string;
  URL_RawQuery : string
}.

(** [http.Request], the fields the package reads.  [http_URL] is a pointer. *)
Record http_Request : Type := mkHttpRequest {
  http_Header : gmap string (list string);
  http_URL : option URL
}.

(** A byte of an HTTP token (net/textproto's valid header field byte). *)
Definition validHeaderFieldByte (c : ascii) : bool :=
  let n := nat_of_ascii c in
  ((48 <=? n) && (n <=? 57) || (65 <=? n) && (n <=? 90)
   || (97 <=? n) && (n <=? 122)
   || existsb (Nat.eqb n) [33; 35; 36; 37; 38; 39; 42; 43; 45; 46; 94; 95; 96; 124; 126])%nat.

Fixpoint allValidHeaderFieldBytes (s : string) : bool :=
  match s with
  | EmptyString => true
  | String c s' => validHeaderFieldByte c && allValidHeaderFieldBytes s'
  end.

Definition toUpper (c : ascii) : ascii :=
  let n := nat_of_ascii c in
  if ((97 <=? n) && (n <=? 122))%nat then ascii_of_nat (n - 32) else c.

Definition toLower (c : ascii) : ascii :=
  let n := nat_of_ascii c in
  if ((65 <=? n) && (n <=? 90))%nat then ascii_of_nat (n + 32) else c.

Fixpoint canonicalise (upper : bool) (s : string) : string :=
  match s with
  | EmptyString => EmptyString
  | String c s' =>
      let c' := if upper then toUpper c else toLower c in
      String c' (canonicalise (Ascii.eqb c' "-"%char) s')
  end.

(** [http.CanonicalHeaderKey]: a key holding a byte that is not a token
    byte is returned unchanged. *)
Definition http_CanonicalHeaderKey (s : string) : string :=
  if allValidHeaderFieldBytes s then canonicalise true s else s.

(** [http.Header.Get]. *)
Definition Header_Get (h : gmap string (list string)) (key : string) : string :=
  match h !! http_CanonicalHeaderKey key with
  | Some (v :: _) => v
  | _ => ""
  end.

(** ** coalesce.go *)

#[global] Instance Zero_Time : Zero time_Time := 0.
#[global] Instance time_Time_eq_dec : EqDecision time_Time := Z.eq_dec.

(** [coalesce]: the first value that is not the zero value. *)
Fixpoint coalesce {T : Type} `{EqDecision T} `{Zero T} (values : list T) : T :=
  match values with
  | [] => zero
  | v :: rest => if decide (v = zero) then coalesce rest else v
  end.

(** [ifNil]. *)
Definition ifNil {T : Type} (ptr : option T) (value : T) : T :=
  match ptr with
  | Some v => v
  | None => value
  end.

(** [ifNotNil]. *)
Definition ifNotNil {T : Type} `{Zero T} (ptr : option T) : T :=
  match ptr with
  | Some v => v
  | None => zero
  end.

(** ** errors.go *)

Definition ErrInvalidAcceptHeader : error := errors_New "no formatter for content type".
Definition ErrInvalidArgument : error := errors_New "invalid argument".
Definition ErrInvalidOperation : error := errors_New "invalid operation".
Definition ErrInvalidStatusCode : error := errors_New "invalid statuscode".
Definition ErrMarshalErrorFailed : error := errors_New "error marshalling an Error response".
Definition ErrMarshalResultFailed : error := errors_New "error marshalling response".

(** ** Data model *)

(** The default projection model of an Error (projectError.go), over the
    type [V] of property values. *)
Record errorResponse_ (V : Type) : Type := mkErrorResponse {
  er_XMLName : string;
  er_Status : Z;
  er_Error : string;
  er_Message : string;
  er_Path : string;
  er_Query : string;
  er_Timestamp : time_Time;
  er_Help : string;
  er_Additional : option (gmap string V)
}.
Arguments mkErrorResponse {V}.
Arguments er_XMLName {V}.
Arguments er_Status {V}.
Arguments er_Error {V}.
Arguments er_Message {V}.
Arguments er_Path {V}.
Arguments er_Query {V}.
Arguments er_Timestamp {V}.
Arguments er_Help {V}.
Arguments er_Additional {V}.

(** Values of the interface type [any], by dynamic type.  [of_other]
    stands for a value of any dynamic type the package has no case for,
    named by its type. *)
Inductive any : Type :=
| of_nil
| of_int (n : Z)
| of_string (s : string)
| of_bytes (b : list Byte.byte)
| of_error (e : error)
| of_Request (r : option http_Request)
| of_URL (u : URL)
| of_URLptr (u : option URL)
| of_map (m : gmap string any)
| of_errorResponse (p : errorResponse_ any)
| of_other (type_name : string).

Definition errorResponse : Type := errorResponse_ any.

(** headers.go: [type headers map[string]any]; [None] is the nil map. *)
Definition headers : Type := option (gmap string any).

(** The result of a marshalling function: the content, or the error. *)
Definition marshalled : Type := (list Byte.byte + error)%type.

(** [marshalFunc]. *)
Definition marshalFunc : Type := any -> marshalled.

(** logError.go *)
Record InternalError : Type := mkInternalError {
  ie_Err : option error;
  ie_Help : string;
  ie_Message : string;
  ie_Request : option http_Request;
  ie_ContentType : string
}.

(** errorInfo.go *)
Record ErrorInfo : Type := mkErrorInfo {
  ei_StatusCode : Z;
  ei_Err : option error;
  ei_Help : string;
  ei_Message : string;
  ei_Request : option http_Request;
  ei_Properties : option (gmap string any);
  ei_TimeStamp : time_Time
}.

(** response.go *)
Record Response : Type := mkResponse {
  StatusCode : Z;
  ContentType : string;
  Content : list Byte.byte;
  Response_headers : headers
}.

(** request.go: the inbound request with the negotiated content type and
    marshalling function. *)
Record Request : Type := mkRequest {
  Request_Request : option http_Request;
  Accept : string;
  MarshalContent : marshalFunc
}.

(** error.go *)
Record Error : Type := mkError {
  err : option error;
  help : option string;
  message : option string;
  request : option http_Request;
  Error_statusCode : Z;
  timeStamp : time_Time;
  properties : option (gmap string any);
  Error_headers : headers
}.

(** result.go *)
Record Result : Type := mkResult {
  content : any;
  contentType : option string;
  Result_headers : headers;
  Result_statusCode : Z
}.

(** problem.go *)
Record Problem : Type := mkProblem {
  Type_ : option URL;
  Status_ : Z;
  Instance_ : option URL;
  Detail : string;
  Title : string;
  props : option (gmap string any)
}.

(** ** Effects *)

(** What a call that may panic produces. *)
Inductive outcome (A : Type) : Type :=
| Return (a : A)
| Panic (v : error).
Arguments Return {A} a.
Arguments Panic {A} v.

(** The calls a response construction makes to its collaborators: the
    negotiated marshaller (with what it returned), the diagnostic hook
    [LogError], and the [http.ResponseWriter]. *)
Inductive event : Type :=
| ev_Marshal (v : any) (r : marshalled)
| ev_LogError (ie : InternalError)
| ev_HeaderAdd (key value : string)
| ev_HeaderSet (key : string) (values : list string)
| ev_WriteHeader (statusCode : Z)
| ev_Write (content : list Byte.byte) (r : option error).

(** A computation: its outcome and the calls it made, oldest first. *)
Definition M (A : Type) : Type := (outcome A * list event)%type.

#[global] Instance M_ret : MRet M := fun A a => (Return a, []).

#[global] Instance M_bind : MBind M := fun A B f c =>
  match c with
  | (Return a, t1) => let '(o, t2) := f a in (o, (t1 ++ t2)%list)
  | (Panic v, t1) => (Panic v, t1)
  end.

Definition panic {A : Type} (v : error) : M A := (Panic v, []).

Definition emit (e : event) : M unit := (Return tt, [e]).

Definition lift {A : Type} (o : outcome A) : M A := (o, []).

(** logError.go: the hook [LogError]; its call is recorded. *)
Definition LogError (ie : InternalError) : M unit := emit (ev_LogError ie).

(** A call [rq.MarshalContent(v)]. *)
Definition call_MarshalContent (rq : Request) (v : any) : M marshalled :=
  let r := MarshalContent rq v in (Return r, [ev_Marshal v r]).




(** The line feed used as separator by [errors.Join] and by the fallback
    body of an Error response. *)
Definition LF : string := String (ascii_of_nat 10) "".


(** The loop [for k, v := range entries { dst[k] = v }]. *)
Definition assign_all (dst : gmap string any) (entries : list (string * any))
  : gmap string any :=
  fold_left (fun acc kv => <[kv.1 := kv.2]> acc) entries dst.

(** [len(m)] of a map that may be nil. *)
Definition len_map (m : option (gmap string any)) : nat :=
  match m with
  | Some m' => size m'
  | None => 0%nat
  end.

(** [v == nil] for an interface value. *)
Definition is_nil (v : any) : bool :=
  match v with
  | of_nil => true
  | _ => false
  end.

(** ** projectError.go: the default projection *)

Definition defaultProjectError (inf : ErrorInfo) : outcome any :=
  match ei_Request inf with
  | None => Panic nil_dereference
  | Some rq =>
      match http_URL rq with
      | None => Panic nil_dereference
      | Some u =>
          let message :=
            match ei_Err inf with
            | Some w =>
                if decide (ei_Message inf = "") then error_Error w
                else error_Error w ++ ": " ++ ei_Message inf
            | None => ei_Message inf
            end in
          let additional :=
            if decide (0 < len_map (ei_Properties inf))%nat
            then ei_Properties inf else None in
          Return (of_errorResponse
            {| er_XMLName := "error";
               er_Status := ei_StatusCode inf;
               er_Error := http_StatusText (ei_StatusCode inf);
               er_Message := message;
               er_Path := URL_Path u;
               er_Query := URL_RawQuery u;
               er_Timestamp := ei_TimeStamp inf;
               er_Help := ei_Help inf;
               er_Additional := additional |})
      end
  end.

(** ** error.go, without its collaborators *)

(** The method [Error()] of an Error. *)
Definition Error_Error (e : Error) : string :=
  let code := Error_statusCode e in
  let status := http_StatusText (Error_statusCode e) in
  match err e, message e with
  | Some w, Some m => itoa code ++ " " ++ status ++ ": " ++ error_Error w ++ ": " ++ m
  | Some w, None => itoa code ++ " " ++ status ++ ": " ++ error_Error w
  | None, Some m => itoa code ++ " " ++ status ++ ": " ++ m
  | None, None => itoa code ++ " " ++ status
  end.

(** [fmt.Errorf("%w: %d: valid range for error status is 4xx-5xx", ErrInvalidStatusCode, v)] *)
Definition invalid_error_status (v : Z) : error :=
  fmt_Errorf
    (error_Error ErrInvalidStatusCode ++ ": " ++ itoa v
       ++ ": valid range for error status is 4xx-5xx")
    [ErrInvalidStatusCode].

(** The variables of [NewError] that its argument loop assigns. *)
Record NewError_vars : Type := mkNewErrorVars {
  nv_errs : list error;
  nv_strs : list string;
  nv_rq : option http_Request;
  nv_sc : option Z
}.

(** The argument loop of [NewError]: a type switch on each argument; an
    argument that matches no case is passed over. *)
Fixpoint NewError_loop (args : list any) (vs : NewError_vars) : outcome NewError_vars :=
  match args with
  | [] => Return vs
  | arg :: rest =>
      match arg with
      | of_error v =>
          NewError_loop rest
            {| nv_errs := (nv_errs vs ++ [v])%list; nv_strs := nv_strs vs;
               nv_rq := nv_rq vs; nv_sc := nv_sc vs |}
      | of_int v =>
          if decide (v < 400 \/ v > 599) then Panic (invalid_error_status v)
          else
            NewError_loop rest
              {| nv_errs := nv_errs vs; nv_strs := nv_strs vs; nv_rq := nv_rq vs;
                 nv_sc := match nv_sc vs with None => Some v | Some sc => Some sc end |}
      | of_string v =>
          NewError_loop rest
            {| nv_errs := nv_errs vs; nv_strs := (nv_strs vs ++ [v])%list;
               nv_rq := nv_rq vs; nv_sc := nv_sc vs |}
      | of_Request v =>
          NewError_loop rest
            {| nv_errs := nv_errs vs; nv_strs := nv_strs vs; nv_rq := v;
               nv_sc := nv_sc vs |}
      | _ => NewError_loop rest vs
      end
  end.

(** ** result.go, without its collaborators *)

(** [fmt.Errorf("%w: %d: valid range is 1xx-5xx", ErrInvalidStatusCode, statusCode)] *)
Definition invalid_result_status (statusCode : Z) : error :=
  fmt_Errorf
    (error_Error ErrInvalidStatusCode ++ ": " ++ itoa statusCode
       ++ ": valid range is 1xx-5xx")
    [ErrInvalidStatusCode].

(** [Status]. *)
Definition Status (statusCode : Z) : outcome Result :=
  if decide (statusCode < 100 \/ statusCode > 599)
  then Panic (invalid_result_status statusCode)
  else Return {| content := of_nil; contentType := None; Result_headers := None;
                 Result_statusCode := statusCode |}.

Definition Accepted : Result :=
  {| content := of_nil; contentType := None; Result_headers := None;
     Result_statusCode := http_StatusAccepted |}.

Definition Created : Result :=
  {| content := of_nil; contentType := None; Result_headers := None;
     Result_statusCode := http_StatusCreated |}.

Definition NoContent : Result :=
  {| content := of_nil; contentType := None; Result_headers := None;
     Result_statusCode := http_StatusNoContent |}.

Definition NotImplemented : Result :=
  {| content := of_nil; contentType := None; Result_headers := None;
     Result_statusCode := http_StatusNotImplemented |}.

Definition OK : Result :=
  {| content := of_nil; contentType := None; Result_headers := None;
     Result_statusCode := http_StatusOK |}.

(** [Result.WithContent]; [bytes.Clone] yields a slice with the same bytes,
    held in [content] as a non-nil interface value. *)
Definition WithContent (r : Result) (contentType : string) (content : list Byte.byte) : Result :=
  {| content := of_bytes content; contentType := Some contentType;
     Result_headers := Result_headers r; Result_statusCode := Result_statusCode r |}.

(** [Result.WithValue]. *)
Definition WithValue (r : Result) (value : any) : Result :=
  {| content := value; contentType := None;
     Result_headers := Result_headers r; Result_statusCode := Result_statusCode r |}.

(** ** problem.go, without its collaborators *)

(** One iteration of the argument loop of [NewProblem]. *)
Definition NewProblem_step (range : gmap string any -> list (string * any))
    (p : Problem) (arg : any) : outcome Problem :=
  match arg with
  | of_int arg =>
      Return {| Type_ := Type_ p; Status_ := arg; Instance_ := Instance_ p;
                Detail := Detail p; Title := Title p; props := props p |}
  | of_URL arg =>
      Return {| Type_ := Some arg; Status_ := Status_ p; Instance_ := Instance_ p;
                Detail := Detail p; Title := Title p; props := props p |}
  | of_URLptr arg =>
      match arg with
      | None => Panic nil_dereference
      | Some cp =>
          Return {| Type_ := Some cp; Status_ := Status_ p; Instance_ := Instance_ p;
                    Detail := Detail p; Title := Title p; props := props p |}
      end
  | of_string arg =>
      Return {| Type_ := Type_ p; Status_ := Status_ p; Instance_ := Instance_ p;
                Detail := arg; Title := Title p; props := props p |}
  | of_error arg =>
      Return {| Type_ := Type_ p;
                Status_ := coalesce [Status_ p; http_StatusInternalServerError];
                Instance_ := Instance_ p;
                Detail := error_Error arg; Title := Title p; props := props p |}
  | of_map arg =>
      let props0 := match props p with None => ∅ | Some m => m end in
      Return {| Type_ := Type_ p; Status_ := Status_ p; Instance_ := Instance_ p;
                Detail := Detail p; Title := Title p;
                props := Some (assign_all props0 (range arg)) |}
  | _ => Panic ErrInvalidArgument
  end.

Fixpoint NewProblem_loop (range : gmap string any -> list (string * any))
    (args : list any) (p : Problem) : outcome Problem :=
  match args with
  | [] => Return p
  | arg :: rest =>
      match NewProblem_step range p arg with
      | Return p' => NewProblem_loop range rest p'
      | Panic v => Panic v
      end
  end.

(** ** The package against its collaborators *)

Section Model.

(** now.go: the clock [nowUTC], pinned to one reading. *)
Variable nowUTC : time_Time.

(** [fmt]'s rendering of a value under the verb [%v]. *)
Variable fmt_v : any -> string.

(** [fmt]'s rendering of a [*Problem] under the verb [%v]. *)
Variable fmt_Problem : Problem -> string.

(** The order in which [for ... range] visits the entries of a map. *)
Variable range : gmap string any -> list (string * any).

(** projectError.go: the replaceable projection function [ProjectError]. *)
Variable ProjectError : ErrorInfo -> outcome any.

(** [encoding/json] and [encoding/xml]. *)
Variable json_Marshal : any -> marshalled.
Variable xml_Marshal : any -> marshalled.
Variable json_MarshalIndent : any -> string -> string -> marshalled.
Variable xml_MarshalIndent : any -> string -> string -> marshalled.

(** The method [String] of a [url.URL]. *)
Variable URL_String : URL -> string.

(** What [rw.Write] returns for a body: nil, or the transport's error. *)
Variable rw_Write : list Byte.byte -> option error.

(** *** marshalling.go *)

Definition marshal : gmap string marshalFunc :=
  {[ "application/json" := json_Marshal;
     "application/xml" := xml_Marshal;
     "text/json" := (fun v => json_MarshalIndent v "" "  ");
     "text/xml" := (fun v => xml_MarshalIndent v "" "    ") ]}.

(** *** request.go: content negotiation *)

Definition newRequest (rq : http_Request) : Request + error :=
  let acc := Header_Get (http_Header rq) "Accept" in
  let acc := if decide (acc = "" \/ acc = "*/*") then "application/json" else acc in
  match marshal !! acc with
  | Some mc => inl {| Request_Request := Some rq; Accept := acc; MarshalContent := mc |}
  | None => inr ErrInvalidAcceptHeader
  end.

(** *** error.go *)

Definition NewError (args : list any) : outcome Error :=
  match NewError_loop args
          {| nv_errs := []; nv_strs := []; nv_rq := None; nv_sc := None |} with
  | Panic v => Panic v
  | Return vs =>
      let err :=
        match nv_errs vs with
        | [] => None
        | [e] => Some e
        | errs => Some (errors_Join errs)
        end in
      let msg :=
        if decide (0 < length (nv_strs vs))%nat
        then Some (strings_Join (nv_strs vs) " ") else None in
      Return {| err := err; help := None; message := msg; request := nv_rq vs;
                Error_statusCode :=
                  coalesce [ifNotNil (nv_sc vs); http_StatusInternalServerError];
                timeStamp := nowUTC; properties := None; Error_headers := None |}
  end.

Definition BadRequest (args : list any) : outcome Error :=
  NewError (of_int http_StatusBadRequest :: args).

Definition Forbidden (args : list any) : outcome Error :=
  NewError (of_int http_StatusForbidden :: args).

Definition InternalServerError (args : list any) : outcome Error :=
  NewError (of_int http_StatusInternalServerError :: args).

Definition NotFound (args : list any) : outcome Error :=
  NewError (of_int http_StatusNotFound :: args).

Definition Unauthorized (args : list any) : outcome Error :=
  NewError (of_int http_StatusUnauthorized :: args).

(** [Error.info]. *)
Definition Error_info (e : Error) : ErrorInfo :=
  {| ei_StatusCode := Error_statusCode e;
     ei_Err := err e;
     ei_Message := ifNotNil (message e);
     ei_Help := ifNotNil (help e);
     ei_Request := request e;
     ei_TimeStamp := timeStamp e;
     ei_Properties :=
       match properties e with
       | Some m =>
           if decide (0 < size m)%nat then Some (assign_all ∅ (range m)) else None
       | None => None
       end |}.

(** The body of the fallback response of [makeErrorResponse]. *)
Definition fallback_body (merr : error) (e : Error) : string :=
  strings_Join
    [ "An error occurred marshalling an error response";
      "";
      "The marshalling error was:";
      "   " ++ error_Error merr;
      "";
      "The original error was:";
      "   " ++ Error_Error e ]
    LF.

(** [makeErrorResponse].  The Error is behind a pointer and is assigned
    to, so its final state is returned with the response. *)
Definition makeErrorResponse (e : Error) (rq : Request) : M (Error * Response) :=
  if decide (Error_statusCode e <> 0 /\ (Error_statusCode e < 400 \/ Error_statusCode e > 599))
  then panic (invalid_error_status (Error_statusCode e))
  else
    let e :=
      {| err := err e; help := help e; message := message e;
         request := Request_Request rq;
         Error_statusCode := coalesce [Error_statusCode e; http_StatusInternalServerError];
         timeStamp := coalesce [timeStamp e; nowUTC];
         properties := properties e; Error_headers := Error_headers e |} in
    p ← lift (ProjectError (Error_info e));
    let statusCode := Error_statusCode e in
    let contentType := Accept rq in
    r ← call_MarshalContent rq p;
    match r with
    | inr merr =>
        LogError {| ie_Err := Some merr;
                    ie_Message := "error marshalling error response";
                    ie_Help := "the original error was: " ++ Error_Error e;
                    ie_Request := Request_Request rq;
                    ie_ContentType := "" |} ;;
        mret (e, {| StatusCode := http_StatusInternalServerError;
                    ContentType := "plain/text";
                    Content := bytes_of (fallback_body merr e);
                    Response_headers := None |})
    | inl content =>
        mret (e, {| StatusCode := statusCode;
                    ContentType := contentType;
                    Content := content;
                    Response_headers := None |})
    end.

(** [Error.makeResponse]. *)
Definition Error_makeResponse (apierr : Error) (rq : Request) : M (Error * Response) :=
  makeErrorResponse apierr rq.

(** *** result.go *)

(** [headers.String]. *)
Definition headers_String (h : headers) : string :=
  match h with
  | None => "<nil>"
  | Some m =>
      "{" ++ strings_Join
               (map (fun kv : string * any => kv.1 ++ ":[" ++ fmt_v kv.2 ++ "]") (range m))
               ", " ++ "}"
  end.

(** [Result.String]. *)
Definition Result_String (r : Result) : string :=
  "{statusCode:" ++ itoa (Result_statusCode r)
    ++ ", contentType:" ++ ifNil (contentType r) "<nil>"
    ++ ", content:[" ++ fmt_v (content r)
    ++ "], headers:" ++ headers_String (Result_headers r) ++ "}".

(** [fmt.Errorf("%w: %w", ErrMarshalResultFailed, err)] *)
Definition marshal_result_failed (merr : error) : error :=
  fmt_Errorf (error_Error ErrMarshalResultFailed ++ ": " ++ error_Error merr)
    [ErrMarshalResultFailed; merr].

(** [makeResultResponse]. *)
Definition makeResultResponse (result : Result) (rq : Request) : M Response :=
  let response :=
    {| StatusCode := coalesce [Result_statusCode result; http_StatusOK];
       ContentType := ""; Content := [];
       Response_headers := Result_headers result |} in
  match contentType result with
  | Some ct =>
      if negb (is_nil (content result)) then
        match content result with
        | of_bytes b =>
            mret {| StatusCode := StatusCode response; ContentType := ct;
                    Content := b; Response_headers := Response_headers response |}
        | _ => panic bad_type_assertion
        end
      else mret response
  | None =>
      if is_nil (content result) then mret response
      else
        let contentType := Accept rq in
        r ← call_MarshalContent rq (content result);
        match r with
        | inr merr =>
            LogError {| ie_Err := Some merr;
                        ie_Message := "error marshalling Result response";
                        ie_Help := "Result:" ++ Result_String result;
                        ie_Request := Request_Request rq;
                        ie_ContentType := "" |} ;;
            e ← lift (InternalServerError [of_error (marshal_result_failed merr)]);
            er ← Error_makeResponse e rq;
            mret er.2
        | inl content =>
            mret {| StatusCode := StatusCode response; ContentType := contentType;
                    Content := content; Response_headers := Response_headers response |}
        end
  end.

(** [Result.makeResponse]. *)
Definition Result_makeResponse (result : Result) (rq : Request) : M Response :=
  makeResultResponse result rq.

(** *** problem.go *)

Definition NewProblem (args : list any) : outcome Problem :=
  match NewProblem_loop range args
          {| Type_ := None; Status_ := 0; Instance_ := None; Detail := "";
             Title := ""; props := None |} with
  | Panic v => Panic v
  | Return p =>
      let status := coalesce [Status_ p; http_StatusInternalServerError] in
      Return {| Type_ := Type_ p; Status_ := status; Instance_ := Instance_ p;
                Detail := coalesce [Detail p; http_StatusText status];
                Title := Title p; props := props p |}
  end.

(** [makeProblemResponse]. *)
Definition makeProblemResponse (p : Problem) (rq : Request) : M Response :=
  let response : gmap string any := ∅ in
  let response :=
    match Type_ p with
    | Some u => <["type" := of_string (URL_String u)]> response
    | None => response
    end in
  let response :=
    if decide (Title p <> "") then <["title" := of_string (Title p)]> response
    else response in
  let response :=
    if decide (Status_ p > 0) then <["status" := of_int (Status_ p)]> response
    else response in
  let response :=
    if decide (Detail p <> "") then <["detail" := of_string (Detail p)]> response
    else response in
  let response :=
    match Instance_ p with
    | Some u => <["instance" := of_string (URL_String u)]> response
    | None => response
    end in
  let response :=
    match props p with
    | Some m => assign_all response (range m)
    | None => response
    end in
  if decide (size response = 0%nat)
  then panic (fmt_Errorf
                (error_Error ErrInvalidOperation
                   ++ ": an uninitialised restapi.Problem was returned")
                [ErrInvalidOperation])
  else
    r ← call_MarshalContent rq (of_map response);
    match r with
    | inr merr =>
        LogError {| ie_Err := Some merr;
                    ie_Message := "error marshalling Problem response";
                    ie_Help := "Problem: " ++ fmt_Problem p;
                    ie_Request := Request_Request rq;
                    ie_ContentType := "" |} ;;
        e ← lift (InternalServerError [of_error merr; of_Request (Request_Request rq)]);
        er ← Error_makeResponse e rq;
        mret er.2
    | inl result =>
        mret {| StatusCode := coalesce [Status_ p; http_StatusInternalServerError];
                ContentType := "application/problem+json";
                Content := result; Response_headers := None |}
    end.

(** [Problem.makeResponse]. *)
Definition Problem_makeResponse (p : Problem) (rq : Request) : M Response :=
  makeProblemResponse p rq.

(** *** request.go: the dispatcher *)

(** What an endpoint function returns, as the dispatcher's type switch
    sees it: a non-nil pointer to one of the package's three models, or any
    other value. *)
Inductive returned : Type :=
| ret_Error (e : Error)
| ret_Result (r : Result)
| ret_Problem (p : Problem)
| ret_value (v : any).

(** [Request.makeResponse]. *)
Definition Request_makeResponse (rq : Request) (result : returned) : M Response :=
  match result with
  | ret_Error result =>
      let result :=
        {| err := err result; help := help result; message := message result;
           request := Request_Request rq;
           Error_statusCode := Error_statusCode result;
           timeStamp := timeStamp result; properties := properties result;
           Error_headers := Error_headers result |} in
      er ← Error_makeResponse result rq;
      mret er.2
  | ret_Result result => Result_makeResponse result rq
  | ret_Problem result => Problem_makeResponse result rq
  | ret_value (of_error result) =>
      e ← lift (InternalServerError [of_error result; of_Request (Request_Request rq)]);
      er ← Error_makeResponse e rq;
      mret er.2
  | ret_value (of_bytes result) =>
      if decide (length result = 0%nat)
      then mret {| StatusCode := http_StatusNoContent; ContentType := "";
                   Content := []; Response_headers := None |}
      else mret {| StatusCode := http_StatusOK;
                   ContentType := "application/octet-stream";
                   Content := result; Response_headers := None |}
  | ret_value (of_int result) =>
      mret {| StatusCode := result; ContentType := ""; Content := [];
              Response_headers := None |}
  | ret_value result =>
      Result_makeResponse
        {| content := result; contentType := None; Result_headers := None;
           Result_statusCode := http_StatusOK |} rq
  end.

(** *** response.go *)




End Model.

(** ** The remaining operations of the package *)

(** *** headers.go and the builder methods *)

(** The panic raised by an assignment to an entry of a nil map. *)
Definition nil_map_assignment : error :=
  errors_New "assignment to entry in nil map".

(** The statement [h[k] = v] on a map that may be nil. *)
Definition map_assign (h : headers) (k : string) (v : any) : outcome headers :=
  match h with
  | None => Panic nil_map_assignment
  | Some m => Return (Some (<[k := v]> m))
  end.

(** [headers.set]. *)
Definition headers_set (h : headers) (k : string) (v : any) : outcome headers :=
  map_assign h (http_CanonicalHeaderKey k) v.

(** [headers.setNonCanonical]. *)
Definition headers_setNonCanonical (h : headers) (k : string) (v : any) : outcome headers :=
  map_assign h k v.

(** The loop [for k, v := range entries { h[http.CanonicalHeaderKey(k)] = v }]
    of [headers.setAll] and [Result.WithHeaders]. *)
Fixpoint headers_setAll_loop (h : headers) (entries : list (string * any)) : outcome headers :=
  match entries with
  | [] => Return h
  | kv :: rest =>
      match map_assign h (http_CanonicalHeaderKey kv.1) kv.2 with
      | Return h' => headers_setAll_loop h' rest
      | Panic v => Panic v
      end
  end.

(** [Error.hasHeaders]: the Error with its headers map made, and the map. *)
Definition Error_hasHeaders (e : Error) : Error * headers :=
  let h := match Error_headers e with
           | None => Some ∅
           | Some m => Some m
           end in
  ({| err := err e; help := help e; message := message e; request := request e;
      Error_statusCode := Error_statusCode e; timeStamp := timeStamp e;
      properties := properties e; Error_headers := h |}, h).

(** [Error.hasProperties]: the properties map, made when it is nil. *)
Definition Error_hasProperties (e : Error) : gmap string any :=
  match properties e with
  | None => ∅
  | Some m => m
  end.

(** The assignment of a headers map to the headers of an Error. *)
Definition Error_set_headers (e : Error) (h : headers) : Error :=
  {| err := err e; help := help e; message := message e; request := request e;
     Error_statusCode := Error_statusCode e; timeStamp := timeStamp e;
     properties := properties e; Error_headers := h |}.

(** [Error.WithHeader]. *)
Definition Error_WithHeader (e : Error) (k : string) (v : any) : outcome Error :=
  let '(e, h) := Error_hasHeaders e in
  match headers_set h k v with
  | Return h' => Return (Error_set_headers e h')
  | Panic p => Panic p
  end.

(** [Error.WithNonCanonicalHeader]. *)
Definition Error_WithNonCanonicalHeader (e : Error) (k : string) (v : any) : outcome Error :=
  let '(e, h) := Error_hasHeaders e in
  match headers_setNonCanonical h k v with
  | Return h' => Return (Error_set_headers e h')
  | Panic p => Panic p
  end.

(** [Error.WithHelp]. *)
Definition Error_WithHelp (e : Error) (s : string) : Error :=
  {| err := err e; help := Some s; message := message e; request := request e;
     Error_statusCode := Error_statusCode e; timeStamp := timeStamp e;
     properties := properties e; Error_headers := Error_headers e |}.

(** [Error.WithMessage]. *)
Definition Error_WithMessage (e : Error) (s : string) : Error :=
  {| err := err e; help := help e; message := Some s; request := request e;
     Error_statusCode := Error_statusCode e; timeStamp := timeStamp e;
     properties := properties e; Error_headers := Error_headers e |}.

(** [Error.WithProperty]. *)
Definition Error_WithProperty (e : Error) (key : string) (value : any) : Error :=
  {| err := err e; help := help e; message := message e; request := request e;
     Error_statusCode := Error_statusCode e; timeStamp := timeStamp e;
     properties := Some (<[key := value]> (Error_hasProperties e));
     Error_headers := Error_headers e |}.

(** [Error.Unwrap]. *)
Definition Error_Unwrap (e : Error) : option error := err e.

(** The assignment of a headers map to the headers of a Result. *)
Definition Result_set_headers (r : Result) (h : headers) : Result :=
  {| content := content r; contentType := contentType r; Result_headers := h;
     Result_statusCode := Result_statusCode r |}.

(** [Result.WithHeader]: it assigns to the headers map as it is. *)
Definition Result_WithHeader (r : Result) (k : string) (v : any) : outcome Result :=
  match map_assign (Result_headers r) (http_CanonicalHeaderKey k) v with
  | Return h' => Return (Result_set_headers r h')
  | Panic p => Panic p
  end.

(** [Result.WithNonCanonicalHeader]. *)
Definition Result_WithNonCanonicalHeader (r : Result) (k : string) (v : any) : outcome Result :=
  match map_assign (Result_headers r) k v with
  | Return h' => Return (Result_set_headers r h')
  | Panic p => Panic p
  end.

(** The keys [Problem.WithProperty] refuses. *)
Definition reserved_keys : list string :=
  ["type"; "title"; "status"; "detail"; "instance"].

(** [Problem.WithDetail]. *)
Definition Problem_WithDetail (p : Problem) (detail : string) : Problem :=
  {| Type_ := Type_ p; Status_ := Status_ p; Instance_ := Instance_ p;
     Detail := detail; Title := Title p; props := props p |}.

(** [Problem.WithInstance]. *)
Definition Problem_WithInstance (p : Problem) (instance : URL) : Problem :=
  {| Type_ := Type_ p; Status_ := Status_ p; Instance_ := Some instance;
     Detail := Detail p; Title := Title p; props := props p |}.

(** [Problem.WithProperty]. *)
Definition Problem_WithProperty (p : Problem) (key : string) (value : any) : outcome Problem :=
  if decide (key ∈ reserved_keys)
  then Panic (fmt_Errorf
                (error_Error ErrInvalidArgument ++ ": '" ++ key
                   ++ "' is a reserved field which must be set using the appropriate Problem method")
                [ErrInvalidArgument])
  else
    let props0 := match props p with None => ∅ | Some m => m end in
    Return {| Type_ := Type_ p; Status_ := Status_ p; Instance_ := Instance_ p;
              Detail := Detail p; Title := Title p;
              props := Some (<[key := value]> props0) |}.

(** [Problem.WithType]. *)
Definition Problem_WithType (p : Problem) (url : URL) (title : list string) : Problem :=
  {| Type_ := Some url; Status_ := Status_ p; Instance_ := Instance_ p;
     Detail := Detail p; Title := strings_Join title " "; props := props p |}.

(** *** projectError.go: the XML form of the additional properties *)

(** [xml.Token], the three kinds [errorProps.MarshalXML] emits. *)
Inductive xml_Token : Type :=
| xml_StartElement (name : string)
| xml_CharData (data : string)
| xml_EndElement (name : string).

(** [sort.Strings]: ascending in the byte-wise order of strings. *)
Definition sort_Strings (keys : list string) : list string :=
  merge_sort String.le keys.

(** The loop [for _, t := range tokens] of [errorProps.MarshalXML]: the
    tokens handed to [xmlEncodeToken], up to and with the first it refuses,
    and the error of that one. *)
Fixpoint encode_tokens (xmlEncodeToken : xml_Token -> option error)
    (tokens : list xml_Token) : list xml_Token * option error :=
  match tokens with
  | [] => ([], None)
  | t :: rest =>
      match xmlEncodeToken t with
      | Some e => ([t], Some e)
      | None =>
          let '(done, r) := encode_tokens xmlEncodeToken rest in (t :: done, r)
      end
  end.

(** [errorProps.MarshalXML]: the tokens handed to the encoder and the
    error returned.  [flush] is what [e.Flush()] returns. *)
Definition errorProps_MarshalXML (fmt_v : any -> string)
    (range : gmap string any -> list (string * any))
    (xmlEncodeToken : xml_Token -> option error) (flush : option error)
    (m : gmap string any) (start : string) : list xml_Token * option error :=
  let keys := sort_Strings ((range m).*1) in
  let tokens :=
    ([xml_StartElement start]
     ++ concat (map (fun key =>
                       let value := default of_nil (m !! key) in
                       [ xml_StartElement key;
                         xml_CharData (fmt_v value);
                         xml_EndElement key ]) keys)
     ++ [xml_EndElement start])%list in
  match encode_tokens xmlEncodeToken tokens with
  | (done, Some e) => (done, Some e)
  | (done, None) => (done, flush)
  end.

(** *** handleRequest.go: decoding the request body *)

(** The other sentinels of errors.go. *)
Definition ErrBodyRequired : error := errors_New "a body is required".
Definition ErrErrorReadingRequestBody : error := errors_New "error reading request body".
Definition ErrUnexpectedField : error := errors_New "unexpected field".

Section Handlers.

Variable nowUTC : time_Time.
Variable fmt_v : any -> string.
Variable fmt_Problem : Problem -> string.
Variable range : gmap string any -> list (string * any).
Variable ProjectError : ErrorInfo -> outcome any.
Variable URL_String : URL -> string.
Variable rw_Write : list Byte.byte -> option error.

(** [json.Marshal], as [HandlerFunc] calls it. *)
Variable json_Marshal : any -> marshalled.

(** The value of the function variable [newRequest] at the call. *)
Variable current_newRequest : http_Request -> Request + error.

(** [Result.WithHeaders]. *)
Definition Result_WithHeaders (r : Result) (hs : gmap string any) : outcome Result :=
  match headers_setAll_loop (Result_headers r) (range hs) with
  | Return h' => Return (Result_set_headers r h')
  | Panic p => Panic p
  end.

(** [headers.setAll]. *)
Definition headers_setAll (h : headers) (hs : gmap string any) : outcome headers :=
  headers_setAll_loop h (range hs).

(** [Error.WithHeaders]. *)
Definition Error_WithHeaders (e : Error) (hs : gmap string any) : outcome Error :=
  let '(e, h) := Error_hasHeaders e in
  match headers_setAll h hs with
  | Return h' => Return (Error_set_headers e h')
  | Panic p => Panic p
  end.

(** The type [T] of the decoded body, and the result of decoding a body:
    the value, or the decoder's error. *)
Variable T : Type.

(** [restapi.HandleRequest].  [read] is what [ioReadAll(rq.Body)] returns,
    [jsonUnmarshal] the decoding of a body, [h] the handler, called with
    [None] for a nil pointer.  The result is the value returned and the
    bytes behind the new [rq.Body], when it was replaced. *)
Definition HandleRequest (read : list Byte.byte + error)
    (jsonUnmarshal : list Byte.byte -> T + error)
    (h : option T -> outcome returned)
  : outcome returned * option (list Byte.byte) :=
  match read with
  | inr e =>
      (Return (ret_value (of_error
         (fmt_Errorf ("restapi.HandleRequest: " ++ error_Error ErrErrorReadingRequestBody
                        ++ ": " ++ error_Error e)
            [ErrErrorReadingRequestBody; e]))), None)
  | inl body =>
      if decide (length body = 0%nat) then (h None, Some body)
      else
        match jsonUnmarshal body with
        | inr e =>
            (Return (ret_value (of_error
               (fmt_Errorf ("unmarshal JSON: " ++ error_Error e) [e]))), Some body)
        | inl c => (h (Some c), Some body)
        end
  end.

(** The sentinel [ErrDecoder] of package jsonapi. *)
Variable ErrDecoder : error.

(** jsonapi's [handle].  [decode strict body] is what [dc.Decode] returns,
    [strict] saying that unknown fields are disallowed. *)
Definition jsonapi_handle (read : list Byte.byte + error) (strict : bool)
    (decode : bool -> list Byte.byte -> T + error)
    (h : option T -> outcome returned)
  : outcome returned * option (list Byte.byte) :=
  match read with
  | inr e =>
      (Return (ret_value (of_error
         (fmt_Errorf (error_Error ErrErrorReadingRequestBody ++ ": " ++ error_Error e)
            [ErrErrorReadingRequestBody; e]))), None)
  | inl body =>
      if decide (length body = 0%nat) then
        if strict then
          (match BadRequest nowUTC [of_error ErrBodyRequired] with
           | Return e => Return (ret_Error e)
           | Panic v => Panic v
           end, Some body)
        else (h None, Some body)
      else
        match decode strict body with
        | inr e =>
            if String.prefix "json: unknown field" (error_Error e) then
              (match BadRequest nowUTC
                       [of_error (fmt_Errorf
                                    (error_Error ErrUnexpectedField ++ ": " ++ error_Error e)
                                    [ErrUnexpectedField; e])] with
               | Return e' => Return (ret_Error e')
               | Panic v => Panic v
               end, Some body)
            else
              (Return (ret_value (of_error
                 (fmt_Errorf (error_Error ErrDecoder ++ ": " ++ error_Error e)
                    [ErrDecoder; e]))), Some body)
        | inl c => (h (Some c), Some body)
        end
  end.

(** jsonapi's [HandleRequest] and [StrictRequest]. *)
Definition jsonapi_HandleRequest (read : list Byte.byte + error)
    (decode : bool -> list Byte.byte -> T + error)
    (h : option T -> outcome returned) :=
  jsonapi_handle read false decode h.

Definition jsonapi_StrictRequest (read : list Byte.byte + error)
    (decode : bool -> list Byte.byte -> T + error)
    (h : option T -> outcome returned) :=
  jsonapi_handle read true decode h.

(** *** handler.go *)





End Handlers.


(** The arguments of each supported type in an argument list of
    [NewError], in order. *)
Definition int_args (args : list any) : list Z :=
  omap (fun a => match a with of_int n => Some n | _ => None end) args.

Definition string_args (args : list any) : list string :=
  omap (fun a => match a with of_string s => Some s | _ => None end) args.

Definition error_args (args : list any) : list error :=
  omap (fun a => match a with of_error e => Some e | _ => None end) args.

Definition request_args (args : list any) : list (option http_Request) :=
  omap (fun a => match a with of_Request r => Some r | _ => None end) args.

(** ** Concrete collaborators and inputs

    Instances of the collaborators and the inputs of the package's own
    tests, at which the properties below are exercised. *)

(** A rendering for [%v] on the values used below. *)
Definition render_v (v : any) : string :=
  match v with
  | of_nil => "<nil>"
  | of_int n => itoa n
  | of_string s => s
  | of_error e => error_Error e
  | of_other type_name => type_name
  | _ => "?"
  end.

(** A rendering of a [*Problem] for [%v]. *)
Definition render_Problem (p : Problem) : string :=
  "&{" ++ itoa (Status_ p) ++ " " ++ Detail p ++ "}".

(** A rendering of a URL. *)
Definition render_URL (u : URL) : string :=
  URL_Scheme u ++ "://" ++ URL_Host u ++ URL_Path u.

(** An iteration order for [range]. *)
Definition range_sorted (m : gmap string any) : list (string * any) := map_to_list m.


(** The marshaller of the test makeResponse/fails to marshal error response:
    it fails on the default projection and renders any other value. *)
Definition marshal_fails_on_projection : marshalFunc :=
  fun v =>
    match v with
    | of_errorResponse _ => inr (errors_New "marshalling error")
    | _ => inl (bytes_of (render_v v))
    end.

(** The marshaller of the test makeResponse/marshal error: it fails on a
    string and renders the message of a projection. *)
Definition marshal_fails_on_string : marshalFunc :=
  fun v =>
    match v with
    | of_string _ => inr (errors_New "json.Marshal error")
    | of_errorResponse p => inl (bytes_of (er_Message p))
    | _ => inl (bytes_of (render_v v))
    end.

(** Marshallers standing for [encoding/json] and [encoding/xml]. *)
Definition stub_Marshal : any -> marshalled := fun v => inl (bytes_of (render_v v)).
Definition stub_MarshalIndent : any -> string -> string -> marshalled :=
  fun v _ indent => inl (bytes_of (indent ++ render_v v)).


(** An inbound request for [/path]. *)
Definition inbound : http_Request :=
  {| http_Header := ∅;
     http_URL := Some {| URL_Scheme := ""; URL_Host := ""; URL_Path := "/path";
                         URL_RawQuery := "" |} |}.

(** Another request, for [/explicit]. *)
Definition explicit : http_Request :=
  {| http_Header := ∅;
     http_URL := Some {| URL_Scheme := ""; URL_Host := ""; URL_Path := "/explicit";
                         URL_RawQuery := "" |} |}.

(** An inbound request with [Accept: application/xml]. *)
Definition inbound_xml : http_Request :=
  {| http_Header := {[ "Accept" := ["application/xml"] ]};
     http_URL := Some {| URL_Scheme := ""; URL_Host := ""; URL_Path := "/path";
                         URL_RawQuery := "" |} |}.

(** An inbound request with [Accept: text/plain]. *)
Definition inbound_plain : http_Request :=
  {| http_Header := {[ "Accept" := ["text/plain"] ]};
     http_URL := Some {| URL_Scheme := ""; URL_Host := ""; URL_Path := "/path";
                         URL_RawQuery := "" |} |}.

(** [&Error{statusCode: 404, message: "message"}] *)
Definition error_404_message : Error :=
  {| err := None; help := None; message := Some "message"; request := None;
     Error_statusCode := 404; timeStamp := 0; properties := None;
     Error_headers := None |}.

(** [&Error{statusCode: 600}], of the test makeResponse/invalid status code. *)
Definition error_600 : Error :=
  {| err := None; help := None; message := None; request := None;
     Error_statusCode := 600; timeStamp := 0; properties := None;
     Error_headers := None |}.


(** The arguments of the second example in the documentation of
    [NewProblem]: a status code and two errors. *)
Definition NewProblem_example_args : list any :=
  [ of_int http_StatusBadRequest;
    of_error (errors_New "some error");
    of_error (errors_New "another error") ].

(** [&Error{statusCode: 404}] *)
Definition error_404 : Error :=
  {| err := None; help := None; message := None; request := None;
     Error_statusCode := 404; timeStamp := 0; properties := None;
     Error_headers := None |}.

(** [&Error{statusCode: 404, err: errors.New("E"), message: "M"}] *)
Definition error_404_E_M : Error :=
  {| err := Some (errors_New "E"); help := None; message := Some "M";
     request := None; Error_statusCode := 404; timeStamp := 0;
     properties := None; Error_headers := None |}.

(** The Request of the test makeResponse/fails to marshal error response. *)
Definition rq_fails_on_projection : Request :=
  {| Request_Request := Some inbound; Accept := "application/json";
     MarshalContent := marshal_fails_on_projection |}.

(** The Request of the test makeResponse/marshal error. *)
Definition rq_fails_on_string : Request :=
  {| Request_Request := Some inbound; Accept := "application/json";
     MarshalContent := marshal_fails_on_string |}.


(** A Request whose marshaller renders every value. *)
Definition rq_renders : Request :=
  {| Request_Request := Some inbound; Accept := "application/json";
     MarshalContent := stub_Marshal |}.

(** [&Result{content: "not used"}], of the test makeResponse/marshal error. *)
Definition result_not_used : Result :=
  {| content := of_string "not used"; contentType := None;
     Result_headers := None; Result_statusCode := 0 |}.

(** The dynamic types [NewError] has a case for: [int], [string],
    [error] and [*http.Request]. *)
Definition NewError_supports (a : any) : bool :=
  match a with
  | of_int _ | of_string _ | of_error _ | of_Request _ => true
  | _ => false
  end.

(** The dynamic types [NewProblem] has a case for: [int], [url.URL],
    [*url.URL], [string], [error] and [map[string]any]. *)
Definition NewProblem_supports (a : any) : bool :=
  match a with
  | of_int _ | of_URL _ | of_URLptr _ | of_string _ | of_error _ | of_map _ => true
  | _ => false
  end.

(** The Error that [NewError(404, rq)] builds for the request [explicit]
    when the clock reads 0. *)
Definition error_404_explicit : Error :=
  {| err := None; help := None; message := None; request := Some explicit;
     Error_statusCode := 404; timeStamp := 0; properties := None;
     Error_headers := None |}.

(** * Properties *)

(** ** Strings and the monad *)

Lemma string_app_nil_l (s : string) : "" ++ s = s.
Proof. reflexivity. Qed.

Lemma string_app_cons (x : ascii) (a b : string) :
  String x a ++ b = String x (a ++ b).
Proof. reflexivity. Qed.

Lemma string_app_assoc (a b c : string) : (a ++ b) ++ c = a ++ (b ++ c).
Proof.
  induction a as [|x a IH]; [reflexivity |].
  rewrite !string_app_cons. now rewrite IH.
Qed.

Lemma string_app_nil_r (s : string) : s ++ "" = s.
Proof.
  induction s as [|x s IH]; [reflexivity |].
  rewrite string_app_cons. now rewrite IH.
Qed.

Ltac string_normalise :=
  repeat first [ rewrite string_app_assoc | rewrite string_app_nil_r
               | rewrite string_app_nil_l ].



Lemma coalesce_status_default (sc : Z) :
  coalesce [sc; http_StatusInternalServerError] = if decide (sc = 0) then 500 else sc.
Proof.
  unfold http_StatusInternalServerError. simpl.
  destruct (decide (sc = zero)) as [->|Hne].
  - reflexivity.
  - destruct (decide (sc = 0)); [contradiction | reflexivity].
Qed.

Lemma M_bind_Return {A B : Type} (a : A) (t1 : list event) (f : A -> M B) :
  mbind f ((Return a, t1) : M A) = ((f a).1, (t1 ++ (f a).2)%list).
Proof. unfold mbind, M_bind. destruct (f a). reflexivity. Qed.

Lemma M_bind_Panic {A B : Type} (v : error) (t1 : list event) (f : A -> M B) :
  mbind f ((Panic v, t1) : M A) = (Panic v, t1).
Proof. reflexivity. Qed.

Lemma M_bind_emit {B : Type} (ev : event) (f : unit -> M B) :
  mbind f (emit ev) = ((f tt).1, ev :: (f tt).2).
Proof. unfold emit. now rewrite M_bind_Return. Qed.

(** ** Error: the string form *)

(** C6.  The string form of an Error is its status code, a space and the
    status text, then [": "] and the wrapped error when there is one, then
    [": "] and the message when there is one, in that order.  An Error
    with status 404 and neither reads ["404 Not Found"]; with a wrapped
    error [E] and a message [M] it reads ["404 Not Found: <E>: M"]. *)
Theorem Error_Error_format (e : Error) :
  Error_Error e =
    itoa (Error_statusCode e) ++ " " ++ http_StatusText (Error_statusCode e)
      ++ match err e with Some w => ": " ++ error_Error w | None => "" end
      ++ match message e with Some m => ": " ++ m | None => "" end
  /\ (Error_statusCode e = 404 -> err e = None -> message e = None ->
      Error_Error e = "404 Not Found")
  /\ (forall (E : error) (msg : string),
        Error_statusCode e = 404 -> err e = Some E -> message e = Some msg ->
        Error_Error e = "404 Not Found: " ++ error_Error E ++ ": " ++ msg).
Proof.
  unfold Error_Error. repeat split.
  - destruct (err e) as [w|], (message e) as [m|];
      string_normalise; reflexivity.
  - intros -> -> ->. reflexivity.
  - intros E msg -> -> ->. reflexivity.
Qed.

Lemma Error_Error_format_witness :
  Error_Error error_404_E_M = "404 Not Found: E: M"
  /\ Error_Error error_404 = "404 Not Found".
Proof.
  split.
  - exact (proj2 (proj2 (Error_Error_format error_404_E_M)) (errors_New "E") "M"
             eq_refl eq_refl eq_refl).
  - exact (proj1 (proj2 (Error_Error_format error_404)) eq_refl eq_refl eq_refl).
Defined.

(** ** Result: construction and the explicit content pair *)

(** C3, as the code has it.  [Status] succeeds, with that status code, on
    every code from 100 to 599, and panics with an error that wraps
    [ErrInvalidStatusCode] on every other code. *)
Theorem Status_range (code : Z) :
  (100 <= code <= 599 ->
   Status code =
     Return {| content := of_nil; contentType := None; Result_headers := None;
               Result_statusCode := code |})
  /\ (code < 100 \/ code > 599 ->
      Status code = Panic (invalid_result_status code)
      /\ errors_Is (invalid_result_status code) (error_Error ErrInvalidStatusCode) = true).
Proof.
  unfold Status. split; intros Hc.
  - destruct (decide (code < 100 \/ code > 599)); [lia | reflexivity].
  - destruct (decide (code < 100 \/ code > 599)); [split; reflexivity | contradiction].
Qed.

Lemma Status_range_witness :
  Status 100 =
    Return {| content := of_nil; contentType := None; Result_headers := None;
              Result_statusCode := 100 |}
  /\ Status 600 = Panic (invalid_result_status 600).
Proof.
  split.
  - apply (proj1 (Status_range 100)). lia.
  - apply (proj2 (Status_range 600)). right. lia.
Defined.

(** C3, as stated, fails: 99 lies in the range from 1 to 599, and
    [Status] panics on it. *)
Lemma Status_99_panics :
  1 <= 99 <= 599 /\ Status 99 = Panic (invalid_result_status 99).
Proof. split; [lia | reflexivity]. Qed.

(** C5.  A Result on which [WithContent] set a content type and bytes
    yields a Response with exactly that content type and those bytes, for
    every request: no marshaller is called, whatever was negotiated. *)
Theorem WithContent_bypasses_negotiation
    (nowUTC : time_Time) (fmt_v : any -> string)
    (range : gmap string any -> list (string * any))
    (ProjectError : ErrorInfo -> outcome any)
    (r : Result) (contentType : string) (content : list Byte.byte) (rq : Request) :
  makeResultResponse nowUTC fmt_v range ProjectError
      (WithContent r contentType content) rq =
    (Return {| StatusCode := coalesce [Result_statusCode r; http_StatusOK];
               ContentType := contentType;
               Content := content;
               Response_headers := Result_headers r |}, []).
Proof. reflexivity. Qed.

(** ** Error: the response and its fallback *)





Ltac run_M :=
  unfold mbind, M_bind, mret, M_ret, lift, panic, LogError, emit,
    call_MarshalContent, Error_makeResponse; simpl.

(** An Error whose status code is unset or lies in 400..599 passes the
    guard of [makeErrorResponse]; when the projection function returns,
    so does [makeErrorResponse], after exactly one marshaller call. *)
Lemma makeErrorResponse_returns
    (nowUTC : time_Time) (range : gmap string any -> list (string * any))
    (ProjectError : ErrorInfo -> outcome any)
    (e : Error) (rq : Request) (p : any) :
  let e' := {| err := err e; help := help e; message := message e;
               request := Request_Request rq;
               Error_statusCode :=
                 coalesce [Error_statusCode e; http_StatusInternalServerError];
               timeStamp := coalesce [timeStamp e; nowUTC];
               properties := properties e; Error_headers := Error_headers e |} in
  Error_statusCode e = 0 \/ 400 <= Error_statusCode e <= 599 ->
  ProjectError (Error_info range e') = Return p ->
  makeErrorResponse nowUTC range ProjectError e rq =
    match MarshalContent rq p with
    | inl body =>
        (Return (e', {| StatusCode := Error_statusCode e'; ContentType := Accept rq;
                        Content := body; Response_headers := None |}),
         [ev_Marshal p (inl body)])
    | inr merr =>
        (Return (e', {| StatusCode := 500; ContentType := "plain/text";
                        Content := bytes_of (fallback_body merr e');
                        Response_headers := None |}),
         [ ev_Marshal p (inr merr);
           ev_LogError {| ie_Err := Some merr;
                          ie_Message := "error marshalling error response";
                          ie_Help := "the original error was: " ++ Error_Error e';
                          ie_Request := Request_Request rq;
                          ie_ContentType := "" |} ])
    end.
Proof.
  intros e' Hsc Hp. unfold makeErrorResponse.
  destruct (decide (Error_statusCode e <> 0
                    /\ (Error_statusCode e < 400 \/ Error_statusCode e > 599)))
    as [Hbad|_]; [lia |].
  fold e'. run_M. rewrite Hp.
  destruct (MarshalContent rq p); reflexivity.
Qed.

(** An Error whose status code is set outside 400..599 is refused by the
    guard of [makeErrorResponse], before any projection. *)
Lemma makeErrorResponse_invalid_status
    (nowUTC : time_Time) (range : gmap string any -> list (string * any))
    (ProjectError : ErrorInfo -> outcome any) (e : Error) (rq : Request) :
  Error_statusCode e <> 0 ->
  Error_statusCode e < 400 \/ Error_statusCode e > 599 ->
  makeErrorResponse nowUTC range ProjectError e rq =
    (Panic (invalid_error_status (Error_statusCode e)), []).
Proof.
  intros H0 Hr. unfold makeErrorResponse.
  destruct (decide (Error_statusCode e <> 0
                    /\ (Error_statusCode e < 400 \/ Error_statusCode e > 599)))
    as [_|Hn]; [reflexivity | tauto].
Qed.



(** ** Result: a value that fails to marshal *)

(** The Error that [makeResultResponse] synthesises from a marshalling
    error: status 500 wrapping [ErrMarshalResultFailed] and the error. *)
Lemma InternalServerError_of_marshal_failure (nowUTC : time_Time) (merr : error) :
  InternalServerError nowUTC [of_error (marshal_result_failed merr)] =
    Return {| err := Some (marshal_result_failed merr); help := None;
              message := None; request := None; Error_statusCode := 500;
              timeStamp := nowUTC; properties := None; Error_headers := None |}.
Proof. reflexivity. Qed.




(** With the default projection, the projected 500 Error carries the
    message ["error marshalling response: <marshalling error>"]. *)
Lemma defaultProjectError_of_marshal_failure
    (nowUTC : time_Time) (rq : http_Request) (u : URL) (merr : error) :
  http_URL rq = Some u ->
  defaultProjectError
    {| ei_StatusCode := 500;
       ei_Err := Some (marshal_result_failed merr);
       ei_Help := ""; ei_Message := "";
       ei_Request := Some rq;
       ei_Properties := None;
       ei_TimeStamp := nowUTC |} =
    Return (of_errorResponse
      {| er_XMLName := "error"; er_Status := 500;
         er_Error := "Internal Server Error";
         er_Message := "error marshalling response: " ++ error_Error merr;
         er_Path := URL_Path u; er_Query := URL_RawQuery u;
         er_Timestamp := nowUTC; er_Help := ""; er_Additional := None |}).
Proof. intros Hu. unfold defaultProjectError. simpl. rewrite Hu. reflexivity. Qed.

(** ** Content negotiation *)

Section Negotiation.

Variable json_Marshal : any -> marshalled.
Variable xml_Marshal : any -> marshalled.
Variable json_MarshalIndent : any -> string -> string -> marshalled.
Variable xml_MarshalIndent : any -> string -> string -> marshalled.

Local Abbreviation registry :=
  (marshal json_Marshal xml_Marshal json_MarshalIndent xml_MarshalIndent).
Local Abbreviation negotiate :=
  (newRequest json_Marshal xml_Marshal json_MarshalIndent xml_MarshalIndent).

(** The registry has exactly four keys. *)
Lemma marshal_lookup (k : string) :
  registry !! k =
    if decide (k = "application/json") then Some json_Marshal
    else if decide (k = "application/xml") then Some xml_Marshal
    else if decide (k = "text/json") then Some (fun v => json_MarshalIndent v "" "  ")
    else if decide (k = "text/xml") then Some (fun v => xml_MarshalIndent v "" "    ")
    else None.
Proof.
  unfold marshal.
  repeat (rewrite lookup_insert; case_decide; subst;
          [repeat (case_decide; try congruence) |]).
  rewrite lookup_singleton. repeat (case_decide; try congruence).
Qed.

Lemma marshal_lookup_is_Some (k : string) :
  is_Some (registry !! k) <->
  k ∈ ["application/json"; "application/xml"; "text/json"; "text/xml"].
Proof.
  rewrite marshal_lookup. rewrite !elem_of_cons, elem_of_nil.
  repeat case_decide; subst; split; intros Hx;
    try (eexists; reflexivity); try tauto; try (destruct Hx as [? [=]]).
Qed.

(** C4.  An empty Accept value and [*/*] negotiate [application/json].
    Any other Accept value is accepted if and only if it is exactly one of
    [application/json], [application/xml], [text/json] and [text/xml], and
    is then the negotiated content type; every other value fails with
    [ErrInvalidAcceptHeader]. *)
Theorem newRequest_negotiation (rq : http_Request) :
  let acc := Header_Get (http_Header rq) "Accept" in
  (acc = "" \/ acc = "*/*" ->
   negotiate rq =
     inl {| Request_Request := Some rq; Accept := "application/json";
            MarshalContent := json_Marshal |})
  /\ (acc <> "" -> acc <> "*/*" ->
      ((exists r : Request, negotiate rq = inl r) <->
       acc ∈ ["application/json"; "application/xml"; "text/json"; "text/xml"])
      /\ (forall r : Request,
            negotiate rq = inl r ->
            Accept r = acc /\ Request_Request r = Some rq
            /\ registry !! acc = Some (MarshalContent r))
      /\ (acc ∉ ["application/json"; "application/xml"; "text/json"; "text/xml"] ->
          negotiate rq = inr ErrInvalidAcceptHeader)).
Proof.
  intros acc. unfold newRequest. fold acc. split.
  - intros Hdef. destruct (decide (acc = "" \/ acc = "*/*")); [| contradiction].
    rewrite marshal_lookup. reflexivity.
  - intros H1 H2. destruct (decide (acc = "" \/ acc = "*/*")) as [[?|?]|_];
      [contradiction | contradiction |].
    pose proof (marshal_lookup_is_Some acc) as Hreg.
    destruct (registry !! acc) as [mc|] eqn:Hlook.
    + repeat split.
      * intros _. apply Hreg. eauto.
      * intros _. eauto.
      * injection H as <-. reflexivity.
      * injection H as <-. reflexivity.
      * injection H as <-. reflexivity.
      * intros Hnot. exfalso. apply Hnot, Hreg. eauto.
    + repeat split; try discriminate.
      * intros [r [=]].
      * intros Hin. apply Hreg in Hin as [? [=]].
Qed.

End Negotiation.

Lemma newRequest_negotiation_witness :
  newRequest stub_Marshal stub_Marshal stub_MarshalIndent stub_MarshalIndent inbound =
    inl {| Request_Request := Some inbound; Accept := "application/json";
           MarshalContent := stub_Marshal |}
  /\ (exists r : Request,
        newRequest stub_Marshal stub_Marshal stub_MarshalIndent stub_MarshalIndent
          inbound_xml = inl r)
  /\ newRequest stub_Marshal stub_Marshal stub_MarshalIndent stub_MarshalIndent
       inbound_plain = inr ErrInvalidAcceptHeader.
Proof.
  split; [| split].
  - apply (proj1 (newRequest_negotiation stub_Marshal stub_Marshal
                    stub_MarshalIndent stub_MarshalIndent inbound)).
    left. reflexivity.
  - apply (proj1 (proj2 (newRequest_negotiation stub_Marshal stub_Marshal
                           stub_MarshalIndent stub_MarshalIndent inbound_xml)
                    ltac:(discriminate) ltac:(discriminate))).
    vm_compute. apply list_elem_of_further, list_elem_of_here.
  - apply (proj2 (newRequest_negotiation stub_Marshal stub_Marshal
                    stub_MarshalIndent stub_MarshalIndent inbound_plain)
             ltac:(discriminate) ltac:(discriminate)).
    vm_compute. intros Hin.
    repeat (apply elem_of_cons in Hin as [Hin|Hin]; [discriminate |]).
    inversion Hin.
Defined.

(** ** Response: the order of writing *)







(** ** NewError and NewProblem: arguments of an unsupported type *)

Lemma NewError_loop_filter (args : list any) (vs : NewError_vars) :
  NewError_loop args vs =
  NewError_loop (filter (fun a => NewError_supports a = true) args) vs.
Proof.
  revert vs. induction args as [|arg rest IH]; intros vs; [reflexivity |].
  destruct arg;
    first [ rewrite filter_cons_True by reflexivity
          | rewrite filter_cons_False by discriminate ];
    cbn [NewError_loop]; try apply IH.
  destruct (decide (n < 400 \/ n > 599)); [reflexivity | apply IH].
Qed.

Lemma NewError_loop_returns (args : list any) (vs : NewError_vars) :
  (forall n : Z, of_int n ∈ args -> 400 <= n <= 599) ->
  exists vs' : NewError_vars, NewError_loop args vs = Return vs'.
Proof.
  revert vs. induction args as [|arg rest IH]; intros vs Hints.
  - now exists vs.
  - assert (Hrest : forall n : Z, of_int n ∈ rest -> 400 <= n <= 599)
      by (intros n Hn; apply Hints; now right).
    destruct arg; cbn [NewError_loop]; try (apply IH; exact Hrest).
    destruct (decide (n < 400 \/ n > 599)) as [Hbad|_]; [| apply IH; exact Hrest].
    specialize (Hints n ltac:(left)). lia.
Qed.

Lemma NewError_loop_panics (args : list any) (vs : NewError_vars) (v : error) :
  NewError_loop args vs = Panic v ->
  exists n : Z, of_int n ∈ args /\ (n < 400 \/ n > 599) /\ v = invalid_error_status n.
Proof.
  revert vs. induction args as [|arg rest IH]; intros vs Hrun; [discriminate |].
  assert (Hrest : forall vs0, NewError_loop rest vs0 = Panic v ->
            exists n : Z, of_int n ∈ arg :: rest /\ (n < 400 \/ n > 599)
                          /\ v = invalid_error_status n).
  { intros vs0 H0. destruct (IH vs0 H0) as (n & Hin & Hr & Hv).
    exists n. split; [now right | auto]. }
  destruct arg; cbn [NewError_loop] in Hrun; try (eapply Hrest; exact Hrun).
  destruct (decide (n < 400 \/ n > 599)) as [Hbad|_]; [| eapply Hrest; exact Hrun].
  injection Hrun as <-. exists n. split; [left | auto].
Qed.

Lemma NewProblem_loop_unsupported
    (range : gmap string any -> list (string * any)) (args : list any) (p : Problem) :
  (exists a : any, a ∈ args /\ NewProblem_supports a = false) ->
  (forall b : any, b ∈ args -> b <> of_URLptr None) ->
  NewProblem_loop range args p = Panic ErrInvalidArgument.
Proof.
  revert p. induction args as [|arg rest IH]; intros p (a & Hin & Hun) Hptr.
  - inversion Hin.
  - assert (Hptr' : forall b : any, b ∈ rest -> b <> of_URLptr None)
      by (intros b Hb; apply Hptr; now right).
    apply elem_of_cons in Hin as [<-|Hin].
    + destruct a; try discriminate Hun; reflexivity.
    + assert (Hrest : forall p', NewProblem_loop range rest p' = Panic ErrInvalidArgument)
        by (intros p'; apply IH; eauto).
      destruct arg as [| | | | | | | [u|] | | |];
        cbn [NewProblem_loop NewProblem_step]; try apply Hrest; try reflexivity.
      exfalso. apply (Hptr (of_URLptr None)); [left | reflexivity].
Qed.

(** C10.  [NewError] passes over every argument whose type is not [int],
    [string], [error] or [*http.Request]: it gives the result it gives on
    the supported arguments alone, and so do the fixed-status factories.
    It panics only on an [int] outside 400..599, never because of the type
    of an argument.  [NewProblem], on an argument list holding a value of a
    type it has no case for, panics with [ErrInvalidArgument]. *)
Theorem NewError_ignores_unsupported
    (nowUTC : time_Time) (range : gmap string any -> list (string * any))
    (args : list any) :
  let supported := filter (fun a => NewError_supports a = true) args in
  NewError nowUTC args = NewError nowUTC supported
  /\ BadRequest nowUTC args = BadRequest nowUTC supported
  /\ Forbidden nowUTC args = Forbidden nowUTC supported
  /\ InternalServerError nowUTC args = InternalServerError nowUTC supported
  /\ NotFound nowUTC args = NotFound nowUTC supported
  /\ Unauthorized nowUTC args = Unauthorized nowUTC supported
  /\ ((forall n : Z, of_int n ∈ args -> 400 <= n <= 599) ->
      exists e : Error, NewError nowUTC args = Return e)
  /\ (forall v : error,
        NewError nowUTC args = Panic v ->
        exists n : Z, of_int n ∈ args /\ (n < 400 \/ n > 599)
                      /\ v = invalid_error_status n)
  /\ ((exists a : any, a ∈ args /\ NewProblem_supports a = false) ->
      (forall b : any, b ∈ args -> b <> of_URLptr None) ->
      NewProblem range args = Panic ErrInvalidArgument).
Proof.
  intros supported.
  assert (Hfactory : forall code : Z,
            NewError nowUTC (of_int code :: args) =
            NewError nowUTC (of_int code :: supported)).
  { intros code. unfold NewError.
    rewrite (NewError_loop_filter (of_int code :: args)).
    rewrite filter_cons_True by reflexivity. reflexivity. }
  split; [| repeat (split; [apply Hfactory |])]; [| split; [| split]].
  - unfold NewError. now rewrite (NewError_loop_filter args).
  - intros Hints. unfold NewError.
    destruct (NewError_loop_returns args
                {| nv_errs := []; nv_strs := []; nv_rq := None; nv_sc := None |}
                Hints) as [vs' ->].
    eauto.
  - intros v. unfold NewError.
    destruct (NewError_loop args _) as [vs'|v'] eqn:Hloop; [discriminate |].
    intros [= ->]. eapply NewError_loop_panics; exact Hloop.
  - intros Hun Hptr. unfold NewProblem.
    now rewrite (NewProblem_loop_unsupported range args _ Hun Hptr).
Qed.

Lemma NewError_ignores_unsupported_witness :
  (exists e : Error, BadRequest 0 [of_nil] = Return e)
  /\ NewProblem range_sorted [of_other "bool"] = Panic ErrInvalidArgument.
Proof.
  pose proof (NewError_ignores_unsupported 0 range_sorted
                [of_int http_StatusBadRequest; of_nil]) as (_ & _ & _ & _ & _ & _ & Hret & _).
  pose proof (NewError_ignores_unsupported 0 range_sorted
                [of_other "bool"]) as (_ & _ & _ & _ & _ & _ & _ & _ & Hpanic).
  split.
  - apply Hret. intros n Hn.
    apply elem_of_cons in Hn as [[= ->]|Hn]; [unfold http_StatusBadRequest; lia |].
    apply list_elem_of_singleton in Hn. discriminate.
  - apply Hpanic.
    + exists (of_other "bool"). split; [left | reflexivity].
    + intros b Hb. apply list_elem_of_singleton in Hb as ->. discriminate.
Defined.

(** ** NewProblem: the resolution of its arguments *)

(** A later status code, type or detail replaces an earlier one. *)
Lemma NewProblem_step_scalars
    (range : gmap string any -> list (string * any)) (p : Problem) :
  (forall n : Z,
     exists p', NewProblem_step range p (of_int n) = Return p' /\ Status_ p' = n
                /\ Detail p' = Detail p /\ Type_ p' = Type_ p /\ props p' = props p)
  /\ (forall u : URL,
        exists p', NewProblem_step range p (of_URL u) = Return p' /\ Type_ p' = Some u
                   /\ Status_ p' = Status_ p /\ Detail p' = Detail p /\ props p' = props p)
  /\ (forall s : string,
        exists p', NewProblem_step range p (of_string s) = Return p' /\ Detail p' = s
                   /\ Status_ p' = Status_ p /\ Type_ p' = Type_ p /\ props p' = props p).
Proof. repeat split; intros; eexists; repeat split. Qed.

(** An error argument leaves a status that is already set, and sets status
    500 otherwise; it replaces the detail whether or not one is set. *)
Lemma NewProblem_step_error
    (range : gmap string any -> list (string * any)) (p : Problem) (e : error) :
  NewProblem_step range p (of_error e) =
    Return {| Type_ := Type_ p;
              Status_ := if decide (Status_ p = 0) then 500 else Status_ p;
              Instance_ := Instance_ p;
              Detail := error_Error e; Title := Title p; props := props p |}.
Proof.
  cbn [NewProblem_step]. now rewrite coalesce_status_default.
Qed.

Lemma assign_all_lookup (entries : list (string * any)) (dst : gmap string any)
    (k : string) :
  NoDup entries.*1 ->
  assign_all dst entries !! k =
    match list_to_map (M := gmap string any) entries !! k with
    | Some v => Some v
    | None => dst !! k
    end.
Proof.
  unfold assign_all. revert dst.
  induction entries as [|[k0 v0] rest IH]; intros dst Hnd.
  - cbn. now rewrite lookup_empty.
  - apply NoDup_cons in Hnd as [Hnotin Hnd]. cbn [fold_left fst snd].
    rewrite IH by exact Hnd. cbn [list_to_map foldr fst snd uncurry].
    destruct (decide (k0 = k)) as [->|Hne].
    + rewrite (lookup_insert_eq (list_to_map rest)).
      rewrite (not_elem_of_list_to_map_1 (M := gmap string)) by exact Hnotin.
      now rewrite lookup_insert_eq.
    + rewrite (lookup_insert_ne (list_to_map rest)) by exact Hne.
      destruct (list_to_map rest !! k); [reflexivity |].
      now rewrite lookup_insert_ne.
Qed.

(** A property map is merged into the properties so far: its keys are
    added, and replace the earlier value on a key held already. *)
Lemma NewProblem_step_map
    (range : gmap string any -> list (string * any))
    (p : Problem) (m : gmap string any) :
  (forall m0 : gmap string any, range m0 ≡ₚ map_to_list m0) ->
  exists merged : gmap string any,
    NewProblem_step range p (of_map m) =
      Return {| Type_ := Type_ p; Status_ := Status_ p; Instance_ := Instance_ p;
                Detail := Detail p; Title := Title p; props := Some merged |}
    /\ forall k : string,
         merged !! k =
           match m !! k with
           | Some v => Some v
           | None => match props p with Some m0 => m0 !! k | None => None end
           end.
Proof.
  intros Hrange. eexists. split; [reflexivity |].
  intros k.
  assert (Hnd : NoDup (range m).*1).
  { rewrite (Hrange m). apply NoDup_fst_map_to_list. }
  rewrite assign_all_lookup by exact Hnd.
  rewrite <- (list_to_map_proper (map_to_list m) (range m))
    by (apply NoDup_fst_map_to_list || (symmetry; apply Hrange)).
  rewrite list_to_map_to_list.
  destruct (m !! k); [reflexivity |].
  destruct (props p); [reflexivity | apply lookup_empty].
Qed.

(** C7, at the second example of the documentation of [NewProblem]: with
    a status code and two errors the detail is the text of the second
    error, where the documentation has the text of the first. *)
Theorem NewProblem_error_replaces_detail
    (range : gmap string any -> list (string * any)) :
  NewProblem range NewProblem_example_args =
    Return {| Type_ := None; Status_ := 400; Instance_ := None;
              Detail := "another error"; Title := ""; props := None |}
  /\ NewProblem range
       [of_int 404; of_string "resource not found"; of_error (errors_New "boom")] =
     Return {| Type_ := None; Status_ := 404; Instance_ := None;
               Detail := "boom"; Title := ""; props := None |}.
Proof. split; reflexivity. Qed.

(** ** Error: the request reference *)

(** Whatever request an Error refers to, after [makeErrorResponse] it
    refers to the request of the [Request] it was called with. *)
Lemma makeErrorResponse_request
    (nowUTC : time_Time) (range : gmap string any -> list (string * any))
    (ProjectError : ErrorInfo -> outcome any)
    (e e' : Error) (rq : Request) (resp : Response) (t : list event) :
  makeErrorResponse nowUTC range ProjectError e rq = (Return (e', resp), t) ->
  request e' = Request_Request rq.
Proof.
  unfold makeErrorResponse.
  destruct (decide _) as [Hbad|_]; [discriminate |].
  run_M. destruct (ProjectError _) as [p|v]; [| discriminate].
  destruct (MarshalContent rq p); simpl; intros [= <- _ _]; reflexivity.
Qed.

(** C8, at an Error built with an explicit request: [NewError] retains
    the request for [/explicit], and [makeErrorResponse], called for the
    inbound request for [/path], replaces it; the projection carries the
    path of the inbound request.  The dispatcher replaces it as well. *)
Theorem makeErrorResponse_replaces_explicit_request :
  NewError 0 [of_int 404; of_Request (Some explicit)] = Return error_404_explicit
  /\ request error_404_explicit = Some explicit
  /\ exists (e' : Error) (body : list Byte.byte),
       makeErrorResponse 0 range_sorted defaultProjectError
           error_404_explicit rq_renders =
         (Return (e', {| StatusCode := 404; ContentType := "application/json";
                         Content := body; Response_headers := None |}),
          [ev_Marshal
             (of_errorResponse
                {| er_XMLName := "error"; er_Status := 404; er_Error := "Not Found";
                   er_Message := ""; er_Path := "/path"; er_Query := "";
                   er_Timestamp := 0; er_Help := ""; er_Additional := None |})
             (inl body)])
       /\ request e' = Some inbound
       /\ request e' <> Some explicit
       /\ Request_makeResponse 0 render_v render_Problem range_sorted
            defaultProjectError render_URL rq_renders (ret_Error error_404_explicit) =
          (Return {| StatusCode := 404; ContentType := "application/json";
                     Content := body; Response_headers := None |},
           [ev_Marshal
              (of_errorResponse
                 {| er_XMLName := "error"; er_Status := 404; er_Error := "Not Found";
                    er_Message := ""; er_Path := "/path"; er_Query := "";
                    er_Timestamp := 0; er_Help := ""; er_Additional := None |})
              (inl body)]).
Proof.
  split; [reflexivity |]. split; [reflexivity |].
  eexists _, _. split; [vm_compute; reflexivity |].
  split; [reflexivity |]. split; [discriminate | vm_compute; reflexivity].
Qed.

(** ** The package's tests, on the model *)

(** error_test.go, NewError *)
Example test_NewError :
  NewError 0 [ of_int 404; of_error (errors_New "error"); of_string "message";
               of_Request (Some inbound) ] =
    Return {| err := Some (errors_New "error"); help := None;
              message := Some "message"; request := Some inbound;
              Error_statusCode := 404; timeStamp := 0; properties := None;
              Error_headers := None |}.
Proof. reflexivity. Qed.

(** error_test.go, NewError/0 < status code < 400 *)
Example test_NewError_399 :
  exists v : error,
    NewError 0 [of_int 399; of_nil] = Panic v
    /\ errors_Is v (error_Error ErrInvalidStatusCode) = true.
Proof. eexists. split; reflexivity. Qed.

(** error_test.go, NewError/no args *)
Example test_NewError_no_args :
  NewError 0 [] =
    Return {| err := None; help := None; message := None; request := None;
              Error_statusCode := 500; timeStamp := 0; properties := None;
              Error_headers := None |}.
Proof. reflexivity. Qed.

(** error_test.go, NewError/multiple errors and NewError/multiple strings *)
Example test_NewError_multiple :
  NewError 0 [ of_error (errors_New "error 1"); of_error (errors_New "error 2");
               of_string "error 1"; of_string "error 2" ] =
    Return {| err := Some (errors_Join [errors_New "error 1"; errors_New "error 2"]);
              help := None; message := Some "error 1 error 2"; request := None;
              Error_statusCode := 500; timeStamp := 0; properties := None;
              Error_headers := None |}.
Proof. reflexivity. Qed.

(** error_test.go, factory/BadRequest *)
Example test_BadRequest_nil :
  BadRequest 0 [of_nil] =
    Return {| err := None; help := None; message := None; request := None;
              Error_statusCode := 400; timeStamp := 0; properties := None;
              Error_headers := None |}.
Proof. reflexivity. Qed.

(** error_test.go, makeResponse *)
Example test_Error_makeResponse :
  (Error_makeResponse 0 range_sorted defaultProjectError error_404_message
     {| Request_Request := Some inbound; Accept := "request/Content-Type";
        MarshalContent := fun _ => inl (bytes_of "content") |}).1 =
    Return ({| err := None; help := None; message := Some "message";
               request := Some inbound; Error_statusCode := 404; timeStamp := 0;
               properties := None; Error_headers := None |},
            {| StatusCode := 404; ContentType := "request/Content-Type";
               Content := bytes_of "content"; Response_headers := None |}).
Proof. reflexivity. Qed.

(** error_test.go, makeResponse/invalid status code *)
Example test_Error_makeResponse_invalid_status :
  makeErrorResponse 0 range_sorted defaultProjectError error_600 rq_renders =
    (Panic (invalid_error_status 600), []).
Proof. reflexivity. Qed.

(** error_test.go, makeResponse/fails to marshal error response *)
Example test_Error_makeResponse_fails_to_marshal :
  exists (e' : Error) (p : any),
    makeErrorResponse 0 range_sorted defaultProjectError error_404_message
        rq_fails_on_projection =
      (Return (e', {| StatusCode := 500; ContentType := "plain/text";
                      Content :=
                        bytes_of
                          (strings_Join
                             [ "An error occurred marshalling an error response";
                               "";
                               "The marshalling error was:";
                               "   marshalling error";
                               "";
                               "The original error was:";
                               "   404 Not Found: message" ] LF);
                      Response_headers := None |}),
       [ ev_Marshal p (inr (errors_New "marshalling error"));
         ev_LogError {| ie_Err := Some (errors_New "marshalling error");
                        ie_Message := "error marshalling error response";
                        ie_Help := "the original error was: 404 Not Found: message";
                        ie_Request := Some inbound;
                        ie_ContentType := "" |} ]).
Proof. eexists _, _. vm_compute. reflexivity. Qed.

(** result_test.go, makeResponse/empty and makeResponse/with content *)
Example test_Result_makeResponse :
  makeResultResponse 0 render_v range_sorted defaultProjectError
      {| content := of_nil; contentType := None; Result_headers := None;
         Result_statusCode := 0 |} rq_renders =
    (Return {| StatusCode := 200; ContentType := ""; Content := [];
               Response_headers := None |}, [])
  /\ makeResultResponse 0 render_v range_sorted defaultProjectError
       {| content := of_bytes (bytes_of "content");
          contentType := Some "content/type"; Result_headers := None;
          Result_statusCode := 0 |} rq_renders =
     (Return {| StatusCode := 200; ContentType := "content/type";
                Content := bytes_of "content"; Response_headers := None |}, []).
Proof. split; reflexivity. Qed.

(** result_test.go, makeResponse/marshal error *)
Example test_Result_makeResponse_marshal_error :
  exists (resp : Response) (p : any) (body : list Byte.byte),
    makeResultResponse 7 render_v range_sorted defaultProjectError
        result_not_used rq_fails_on_string =
      (Return resp,
       [ ev_Marshal (of_string "not used") (inr (errors_New "json.Marshal error"));
         ev_LogError
           {| ie_Err := Some (errors_New "json.Marshal error");
              ie_Message := "error marshalling Result response";
              ie_Help := "Result:{statusCode:0, contentType:<nil>, content:[not used], headers:<nil>}";
              ie_Request := Some inbound;
              ie_ContentType := "" |};
         ev_Marshal p (inl body) ])
    /\ StatusCode resp = 500 /\ ContentType resp = "application/json"
    /\ p = of_errorResponse
             {| er_XMLName := "error"; er_Status := 500;
                er_Error := "Internal Server Error";
                er_Message := "error marshalling response: json.Marshal error";
                er_Path := "/path"; er_Query := ""; er_Timestamp := 7;
                er_Help := ""; er_Additional := None |}.
Proof. eexists _, _, _. split; [vm_compute; reflexivity |]. repeat split. Qed.

(** problem_test.go, newProblem/no args, /error and status code,
    /error and status code and detail *)
Example test_NewProblem :
  NewProblem range_sorted [] =
    Return {| Type_ := None; Status_ := 500; Instance_ := None;
              Detail := "Internal Server Error"; Title := ""; props := None |}
  /\ NewProblem range_sorted [of_error (errors_New "some error"); of_int 403] =
     Return {| Type_ := None; Status_ := 403; Instance_ := None;
               Detail := "some error"; Title := ""; props := None |}
  /\ NewProblem range_sorted
       [of_error (errors_New "some error"); of_int 403; of_string "forbidden"] =
     Return {| Type_ := None; Status_ := 403; Instance_ := None;
               Detail := "forbidden"; Title := ""; props := None |}.
Proof. repeat split. Qed.

(** problem_test.go, newProblem/multiple props *)
Example test_NewProblem_multiple_props :
  NewProblem range_sorted
    [ of_map {[ "prop1" := of_string "value1"; "prop2" := of_int 2 ]};
      of_map {[ "prop2" := of_string "value2"; "prop3" := of_int 3 ]} ] =
    Return {| Type_ := None; Status_ := 500; Instance_ := None;
              Detail := "Internal Server Error"; Title := "";
              props := Some {[ "prop1" := of_string "value1";
                               "prop2" := of_string "value2";
                               "prop3" := of_int 3 ]} |}.
Proof. vm_compute. reflexivity. Qed.

(** problem_test.go, newProblem/invalid argument *)
Example test_NewProblem_invalid_argument :
  NewProblem range_sorted [of_other "bool"] = Panic ErrInvalidArgument.
Proof. reflexivity. Qed.

(** problem_test.go, makeResponse/zero value *)
Example test_Problem_makeResponse_zero_value :
  exists v : error,
    makeProblemResponse 0 render_Problem range_sorted defaultProjectError render_URL
        {| Type_ := None; Status_ := 0; Instance_ := None; Detail := "";
           Title := ""; props := None |} rq_renders = (Panic v, [])
    /\ errors_Is v (error_Error ErrInvalidOperation) = true.
Proof. eexists. split; reflexivity. Qed.

(** request_test.go, makeResponse/[]byte, /[]byte/empty and /int *)
Example test_Request_makeResponse :
  Request_makeResponse 0 render_v render_Problem range_sorted defaultProjectError
      render_URL rq_renders (ret_value (of_bytes (bytes_of "test content"))) =
    (Return {| StatusCode := 200; ContentType := "application/octet-stream";
               Content := bytes_of "test content"; Response_headers := None |}, [])
  /\ Request_makeResponse 0 render_v render_Problem range_sorted defaultProjectError
       render_URL rq_renders (ret_value (of_bytes [])) =
     (Return {| StatusCode := 204; ContentType := ""; Content := [];
                Response_headers := None |}, [])
  /\ Request_makeResponse 0 render_v render_Problem range_sorted defaultProjectError
       render_URL rq_renders (ret_value (of_int 202)) =
     (Return {| StatusCode := 202; ContentType := ""; Content := [];
                Response_headers := None |}, []).
Proof. repeat split. Qed.

(** request_test.go, newRequest and newRequest/unsupported Accept header *)
Example test_newRequest :
  newRequest stub_Marshal stub_Marshal stub_MarshalIndent stub_MarshalIndent inbound =
    inl {| Request_Request := Some inbound; Accept := "application/json";
           MarshalContent := stub_Marshal |}
  /\ newRequest stub_Marshal stub_Marshal stub_MarshalIndent stub_MarshalIndent
       inbound_plain = inr ErrInvalidAcceptHeader.
Proof. split; vm_compute; reflexivity. Qed.

(** * Further properties of the package *)

(** ** coalesce.go *)

(** X1.  [coalesce] returns the zero value exactly when every value is
    the zero value, and otherwise the first value that is not: values
    after it are not looked at. *)
Theorem coalesce_first_nonzero {T : Type} `{EqDecision T} `{Zero T} (values : list T) :
  (coalesce values = zero <-> Forall (fun v => v = zero) values)
  /\ (forall (zeros : list T) (v : T) (rest : list T),
        values = (zeros ++ v :: rest)%list ->
        Forall (fun z => z = zero) zeros -> v <> zero ->
        coalesce values = v).
Proof.
  split.
  - induction values as [|v vs IH]; cbn [coalesce].
    + split; [constructor | reflexivity].
    + destruct (decide (v = zero)) as [->|Hne].
      * rewrite IH. split; [now constructor | now inversion 1].
      * split; [contradiction | inversion 1; contradiction].
  - intros zeros v rest -> Hz Hv.
    induction Hz as [|z zs -> _ IH]; cbn [coalesce app].
    + destruct (decide (v = zero)); [contradiction | reflexivity].
    + destruct (decide (zero = zero)); [exact IH | contradiction].
Qed.

Lemma coalesce_first_nonzero_witness :
  coalesce [0; 0; 404; 500] = 404 /\ coalesce [""; ""] = "".
Proof.
  split.
  - apply (proj2 (coalesce_first_nonzero [0; 0; 404; 500]) [0; 0] 404 [500]).
    + reflexivity.
    + repeat constructor.
    + discriminate.
  - apply (proj1 (coalesce_first_nonzero [""; ""])). repeat constructor.
Defined.

(** ** headers.go and the builder methods *)

Lemma canon_char_valid (c : ascii) (upper : bool) :
  validHeaderFieldByte c = true ->
  validHeaderFieldByte (if upper then toUpper c else toLower c) = true.
Proof.
  destruct c as [[] [] [] [] [] [] [] []], upper; vm_compute; congruence.
Qed.

Lemma canon_char_idem (c : ascii) (upper : bool) :
  let c' := if upper then toUpper c else toLower c in
  (if upper then toUpper c' else toLower c') = c'.
Proof.
  destruct c as [[] [] [] [] [] [] [] []], upper; vm_compute; reflexivity.
Qed.

Lemma canonicalise_valid (s : string) (upper : bool) :
  allValidHeaderFieldBytes s = true ->
  allValidHeaderFieldBytes (canonicalise upper s) = true.
Proof.
  revert upper. induction s as [|c s IH]; intros upper; [reflexivity |].
  cbn [allValidHeaderFieldBytes canonicalise].
  intros [Hc Hs]%andb_prop.
  rewrite (canon_char_valid c upper Hc). now apply IH.
Qed.

Lemma canonicalise_idem (s : string) (upper : bool) :
  canonicalise upper (canonicalise upper s) = canonicalise upper s.
Proof.
  revert upper. induction s as [|c s IH]; intros upper; [reflexivity |].
  cbn [canonicalise].
  pose proof (canon_char_idem c upper) as Hc. cbn zeta in Hc. rewrite Hc.
  now rewrite IH.
Qed.

Lemma http_CanonicalHeaderKey_idempotent (k : string) :
  http_CanonicalHeaderKey (http_CanonicalHeaderKey k) = http_CanonicalHeaderKey k.
Proof.
  unfold http_CanonicalHeaderKey.
  destruct (allValidHeaderFieldBytes k) eqn:Hv.
  - rewrite (canonicalise_valid k true Hv). apply canonicalise_idem.
  - now rewrite Hv.
Qed.

(** X2.  [headers.set] on a map that is not nil stores the value under
    the canonical form of the key, replaces what was stored there and
    leaves every other key as it was.  Setting a header under a key and
    then under any key with the same canonical form (the canonical form
    itself is one) leaves one entry, with the later value: the result is
    that of the second call alone. *)
Theorem headers_set_canonical (m : gmap string any) (k k' : string) (v v' : any) :
  http_CanonicalHeaderKey k' = http_CanonicalHeaderKey k ->
  exists m1 m2 : gmap string any,
    headers_set (Some m) k v = Return (Some m1)
    /\ m1 !! http_CanonicalHeaderKey k = Some v
    /\ (forall j : string, j <> http_CanonicalHeaderKey k -> m1 !! j = m !! j)
    /\ headers_set (Some m1) k' v' = Return (Some m2)
    /\ headers_set (Some m) k' v' = Return (Some m2)
    /\ m2 !! http_CanonicalHeaderKey k = Some v'
    /\ dom m2 = dom m1
    /\ headers_set (Some m1) (http_CanonicalHeaderKey k) v' = Return (Some m2).
Proof.
  intros Hk. unfold headers_set, map_assign. rewrite Hk.
  rewrite http_CanonicalHeaderKey_idempotent.
  exists (<[http_CanonicalHeaderKey k := v]> m), (<[http_CanonicalHeaderKey k := v']> m).
  split; [reflexivity |]. split; [apply lookup_insert_eq |].
  split; [intros j Hj; now apply lookup_insert_ne |].
  split; [now rewrite insert_insert_eq |]. split; [reflexivity |].
  split; [apply lookup_insert_eq |].
  split; [rewrite !dom_insert_L; set_solver | now rewrite insert_insert_eq].
Qed.

Lemma headers_set_canonical_witness :
  exists m1 m2 : gmap string any,
    headers_set (Some ∅) "x-custom" (of_int 1) = Return (Some m1)
    /\ headers_set (Some m1) "X-Custom" (of_int 2) = Return (Some m2)
    /\ m2 !! "X-Custom" = Some (of_int 2)
    /\ dom m2 = dom m1.
Proof.
  destruct (headers_set_canonical ∅ "x-custom" "X-Custom" (of_int 1) (of_int 2)
              eq_refl)
    as (m1 & m2 & H1 & _ & _ & H2 & _ & H3 & H4 & _).
  exists m1, m2. repeat split; assumption.
Defined.

(** X3.  The header and property builders of an Error never fail, also
    on an Error whose maps are nil: [WithHeader] stores the value under
    the canonical key, [WithNonCanonicalHeader] under the key as given and
    [WithProperty] under the property key, each keeping the other entries
    and every other field of the Error: the wrapped error, the help text,
    the message, the request, the status code, the time stamp and the
    other of the two maps. *)
Theorem Error_builders_total (e : Error) (k : string) (v : any) :
  (exists m : gmap string any,
     Error_WithHeader e k v =
       Return {| err := err e; help := help e; message := message e;
            request := request e; Error_statusCode := Error_statusCode e;
            timeStamp := timeStamp e; properties := properties e;
            Error_headers := Some m |}
     /\ m !! http_CanonicalHeaderKey k = Some v
     /\ forall j : string,
          j <> http_CanonicalHeaderKey k ->
          m !! j = match Error_headers e with Some m0 => m0 !! j | None => None end)
  /\ (exists m : gmap string any,
        Error_WithNonCanonicalHeader e k v =
          Return {| err := err e; help := help e; message := message e;
            request := request e; Error_statusCode := Error_statusCode e;
            timeStamp := timeStamp e; properties := properties e;
            Error_headers := Some m |}
        /\ m !! k = Some v
        /\ forall j : string,
             j <> k ->
             m !! j = match Error_headers e with Some m0 => m0 !! j | None => None end)
  /\ (exists m : gmap string any,
        Error_WithProperty e k v =
          {| err := err e; help := help e; message := message e;
             request := request e; Error_statusCode := Error_statusCode e;
             timeStamp := timeStamp e; properties := Some m;
             Error_headers := Error_headers e |}
        /\ m !! k = Some v
        /\ (forall j : string,
              j <> k ->
              m !! j = match properties e with Some m0 => m0 !! j | None => None end)
        /\ Error_Error (Error_WithProperty e k v) = Error_Error e).
Proof.
  unfold Error_WithHeader, Error_WithNonCanonicalHeader, Error_WithProperty,
    Error_hasHeaders, Error_hasProperties, headers_set, headers_setNonCanonical,
    map_assign, Error_set_headers.
  split; [| split].
  - destruct (Error_headers e) as [m0|]; eexists; (split; [reflexivity |]);
      (split; [apply lookup_insert_eq |]); intros j Hj;
      rewrite lookup_insert_ne by congruence; [reflexivity | apply lookup_empty].
  - destruct (Error_headers e) as [m0|]; eexists; (split; [reflexivity |]);
      (split; [apply lookup_insert_eq |]); intros j Hj;
      rewrite lookup_insert_ne by congruence; [reflexivity | apply lookup_empty].
  - eexists. split; [reflexivity |]. split; [apply lookup_insert_eq |].
    split; [| reflexivity].
    intros j Hj. rewrite lookup_insert_ne by congruence.
    destruct (properties e); [reflexivity | apply lookup_empty].
Qed.

(** X4.  The header builders of a Result assign to its headers map as
    it is.  On a Result whose headers map is nil, which is what [Status]
    and every fixed-status factory return, [WithHeader] and
    [WithNonCanonicalHeader] panic on the assignment to a nil map, and so
    does [WithHeaders] unless it is given no header; on a map that is not
    nil [WithHeader] stores the value under the canonical key. *)
Theorem Result_header_builders_nil_map
    (range : gmap string any -> list (string * any))
    (r : Result) (k : string) (v : any) (hs : gmap string any) :
  (forall m : gmap string any, range m ≡ₚ map_to_list m) ->
  (Result_headers r = None ->
   Result_WithHeader r k v = Panic nil_map_assignment
   /\ Result_WithNonCanonicalHeader r k v = Panic nil_map_assignment
   /\ (hs <> ∅ -> Result_WithHeaders range r hs = Panic nil_map_assignment)
   /\ Result_WithHeaders range r ∅ = Return r)
  /\ (forall m : gmap string any,
        Result_headers r = Some m ->
        Result_WithHeader r k v =
          Return (Result_set_headers r (Some (<[http_CanonicalHeaderKey k := v]> m)))
        /\ Result_WithNonCanonicalHeader r k v =
             Return (Result_set_headers r (Some (<[k := v]> m))))
  /\ Result_headers OK = None /\ Result_headers Created = None
  /\ Result_headers Accepted = None /\ Result_headers NoContent = None
  /\ Result_headers NotImplemented = None
  /\ (forall (code : Z) (r0 : Result), Status code = Return r0 -> Result_headers r0 = None).
Proof.
  intros Hrange.
  unfold Result_WithHeader, Result_WithNonCanonicalHeader, Result_WithHeaders, map_assign.
  split; [| split; [| repeat split]].
  - intros Hnil. rewrite Hnil. repeat split.
    + intros Hne. destruct (range hs) as [|kv rest] eqn:Hr; [| reflexivity].
      exfalso. apply Hne. apply map_to_list_empty_iff.
      apply Permutation_nil_r. rewrite <- (Hrange hs), Hr. reflexivity.
    + assert (range ∅ = []) as ->.
      { apply Permutation_nil_r. rewrite (Hrange ∅), map_to_list_empty. reflexivity. }
      destruct r; cbn in Hnil; subst; reflexivity.
  - intros m ->. split; reflexivity.
  - intros code r0. unfold Status.
    destruct (decide _); [discriminate | intros [= <-]; reflexivity].
Qed.

Lemma Result_header_builders_nil_map_witness :
  Result_WithHeader OK "Location" (of_string "/x") = Panic nil_map_assignment
  /\ Result_WithHeader (Result_set_headers OK (Some ∅)) "location" (of_string "/x") =
     Return (Result_set_headers OK (Some {[ "Location" := of_string "/x" ]})).
Proof.
  pose proof (Result_header_builders_nil_map range_sorted OK "Location"
                (of_string "/x") ∅ (fun m => reflexivity (map_to_list m)))
    as (Hnil & _).
  pose proof (Result_header_builders_nil_map range_sorted
                (Result_set_headers OK (Some ∅)) "location"
                (of_string "/x") ∅ (fun m => reflexivity (map_to_list m)))
    as (_ & Hsome & _).
  split.
  - apply Hnil. reflexivity.
  - apply (Hsome ∅ eq_refl).
Defined.

(** X5.  [Problem.WithProperty] refuses each of the keys [type],
    [title], [status], [detail] and [instance] with a panic that wraps
    [ErrInvalidArgument] and names the key; on every other key it stores
    the value, also when the properties map is nil, keeps the other
    properties and the structured fields, and keeps the properties free of
    those five keys when they were. *)
Theorem Problem_WithProperty_reserved (p : Problem) (key : string) (value : any) :
  (key ∈ reserved_keys ->
   exists v : error,
     Problem_WithProperty p key value = Panic v
     /\ errors_Is v (error_Error ErrInvalidArgument) = true
     /\ contains (error_Error v) ("'" ++ key ++ "'"))
  /\ (key ∉ reserved_keys ->
      exists m : gmap string any,
        Problem_WithProperty p key value =
          Return {| Type_ := Type_ p; Status_ := Status_ p; Instance_ := Instance_ p;
                    Detail := Detail p; Title := Title p; props := Some m |}
        /\ m !! key = Some value
        /\ (forall j : string,
              j <> key ->
              m !! j = match props p with Some m0 => m0 !! j | None => None end)
        /\ ((forall j : string, j ∈ reserved_keys ->
               match props p with Some m0 => m0 !! j | None => None end = None) ->
            forall j : string, j ∈ reserved_keys -> m !! j = None)).
Proof.
  unfold Problem_WithProperty. split; intros Hk.
  - destruct (decide (key ∈ reserved_keys)); [| contradiction].
    eexists. split; [reflexivity |]. split; [reflexivity |].
    cbn [error_Error]. exists (error_Error ErrInvalidArgument ++ ": "),
      " is a reserved field which must be set using the appropriate Problem method".
    string_normalise. reflexivity.
  - destruct (decide (key ∈ reserved_keys)); [contradiction |].
    eexists. split; [reflexivity |]. split; [apply lookup_insert_eq |].
    assert (Hother : forall j : string, j <> key ->
              <[key:=value]> (match props p with None => ∅ | Some m0 => m0 end) !! j =
              match props p with Some m0 => m0 !! j | None => None end).
    { intros j Hj. rewrite lookup_insert_ne by congruence.
      destruct (props p); [reflexivity | apply lookup_empty]. }
    split; [exact Hother |].
    intros Hfree j Hj. rewrite Hother; [now apply Hfree |].
    intros ->. contradiction.
Qed.

Lemma Problem_WithProperty_reserved_witness :
  (exists v : error,
     Problem_WithProperty
       {| Type_ := None; Status_ := 0; Instance_ := None; Detail := "";
          Title := ""; props := None |} "type" (of_string "some value") = Panic v
     /\ errors_Is v (error_Error ErrInvalidArgument) = true)
  /\ exists m : gmap string any,
       Problem_WithProperty
         {| Type_ := None; Status_ := 0; Instance_ := None; Detail := "";
            Title := ""; props := None |} "prop1" (of_string "value1") =
       Return {| Type_ := None; Status_ := 0; Instance_ := None; Detail := "";
                 Title := ""; props := Some m |}
       /\ m !! "prop1" = Some (of_string "value1").
Proof.
  split.
  - destruct (proj1 (Problem_WithProperty_reserved
                       {| Type_ := None; Status_ := 0; Instance_ := None; Detail := "";
                          Title := ""; props := None |} "type" (of_string "some value")))
      as (v & Hv & His & _).
    + unfold reserved_keys. apply list_elem_of_here.
    + exists v. split; assumption.
  - destruct (proj2 (Problem_WithProperty_reserved
                       {| Type_ := None; Status_ := 0; Instance_ := None; Detail := "";
                          Title := ""; props := None |} "prop1" (of_string "value1")))
      as (m & Hm & Hlook & _).
    + unfold reserved_keys. intros Hin.
      repeat (apply elem_of_cons in Hin as [Hin|Hin]; [discriminate |]).
      inversion Hin.
    + exists m. split; [exact Hm | exact Hlook].
Defined.

(** ** NewError: what it makes of its arguments *)

Lemma elem_of_int_args (n : Z) (args : list any) : n ∈ int_args args <-> of_int n ∈ args.
Proof.
  unfold int_args. rewrite list_elem_of_omap. split.
  - intros (a & Hin & Ha). destruct a; try discriminate. now injection Ha as ->.
  - intros Hin. now exists (of_int n).
Qed.

Lemma NewError_loop_spec (args : list any) (vs : NewError_vars) :
  (forall n : Z, n ∈ int_args args -> 400 <= n <= 599) ->
  NewError_loop args vs =
    Return {| nv_errs := (nv_errs vs ++ error_args args)%list;
              nv_strs := (nv_strs vs ++ string_args args)%list;
              nv_rq := default (nv_rq vs) (last (request_args args));
              nv_sc := match nv_sc vs with
                       | Some sc => Some sc
                       | None => head (int_args args)
                       end |}.
Proof.
  revert vs. induction args as [|arg rest IH]; intros vs Hints.
  - cbn. rewrite !app_nil_r. destruct vs as [? ? ? [?|]]; reflexivity.
  - assert (Hrest : forall n : Z, n ∈ int_args rest -> 400 <= n <= 599).
    { intros n Hn. apply Hints. apply elem_of_int_args. right.
      now apply elem_of_int_args. }
    destruct arg; cbn [NewError_loop]; try (rewrite IH by exact Hrest; reflexivity).
    + destruct (decide (n < 400 \/ n > 599)) as [Hbad|_].
      { specialize (Hints n ltac:(apply elem_of_int_args; left)). lia. }
      rewrite IH by exact Hrest. cbn [nv_errs nv_strs nv_rq nv_sc].
      change (int_args (of_int n :: rest)) with (n :: int_args rest).
      destruct (nv_sc vs); reflexivity.
    + rewrite IH by exact Hrest. cbn [nv_errs nv_strs nv_rq nv_sc].
      change (string_args (of_string s :: rest)) with (s :: string_args rest).
      now rewrite <- app_assoc.
    + rewrite IH by exact Hrest. cbn [nv_errs nv_strs nv_rq nv_sc].
      change (error_args (of_error e :: rest)) with (e :: error_args rest).
      now rewrite <- app_assoc.
    + rewrite IH by exact Hrest. cbn [nv_errs nv_strs nv_rq nv_sc].
      change (request_args (of_Request r :: rest)) with (r :: request_args rest).
      rewrite last_cons. destruct (last (request_args rest)); reflexivity.
Qed.

Lemma NewError_loop_Return_ints (args : list any) (vs vs' : NewError_vars) :
  NewError_loop args vs = Return vs' ->
  forall n : Z, n ∈ int_args args -> 400 <= n <= 599.
Proof.
  intros Hrun n Hn. apply elem_of_int_args in Hn.
  destruct (decide (400 <= n <= 599)) as [Hok|Hbad]; [exact Hok | exfalso].
  revert vs Hrun. induction args as [|arg rest IH]; intros vs Hrun; [inversion Hn |].
  apply elem_of_cons in Hn as [<-|Hn].
  - cbn [NewError_loop] in Hrun.
    destruct (decide (n < 400 \/ n > 599)); [discriminate | lia].
  - destruct arg; cbn [NewError_loop] in Hrun; try (eapply IH; eauto; fail).
    destruct (decide (n0 < 400 \/ n0 > 599)); [discriminate | eapply IH; eauto].
Qed.

(** What [NewError] returns when no [int] argument is refused. *)
Lemma NewError_of_valid_ints (nowUTC : time_Time) (args : list any) :
  (forall n : Z, n ∈ int_args args -> 400 <= n <= 599) ->
  NewError nowUTC args =
    Return {| err := match error_args args with
                     | [] => None
                     | [e] => Some e
                     | errs => Some (errors_Join errs)
                     end;
              help := None;
              message := match string_args args with
                         | [] => None
                         | strs => Some (strings_Join strs " ")
                         end;
              request := default None (last (request_args args));
              Error_statusCode := default 500 (head (int_args args));
              timeStamp := nowUTC;
              properties := None;
              Error_headers := None |}.
Proof.
  intros Hints. unfold NewError. rewrite NewError_loop_spec by exact Hints.
  cbn [nv_errs nv_strs nv_rq nv_sc app].
  f_equal. f_equal.
  - destruct (string_args args); reflexivity.
  - destruct (int_args args) as [|n ints] eqn:Hi; [reflexivity |].
    cbn [head ifNotNil default]. rewrite coalesce_status_default.
    specialize (Hints n ltac:(left)).
    destruct (decide (n = 0)); [lia | reflexivity].
Qed.

(** X6.  When every [int] argument lies in 400..599, [NewError] returns
    the Error whose status is the first [int] argument, or 500 when there
    is none; whose message is the [string] arguments joined by spaces in
    their order, or unset when there is none; whose wrapped error is the
    one [error] argument, or [errors.Join] of all of them in their order,
    or unset; whose request is the last [*http.Request] argument; and
    whose timestamp is the reading of the clock. *)
Theorem NewError_spec (nowUTC : time_Time) (args : list any) :
  (forall n : Z, n ∈ int_args args -> 400 <= n <= 599) ->
  NewError nowUTC args =
    Return {| err := match error_args args with
                     | [] => None
                     | [e] => Some e
                     | errs => Some (errors_Join errs)
                     end;
              help := None;
              message := match string_args args with
                         | [] => None
                         | strs => Some (strings_Join strs " ")
                         end;
              request := default None (last (request_args args));
              Error_statusCode := default 500 (head (int_args args));
              timeStamp := nowUTC;
              properties := None;
              Error_headers := None |}.
Proof. exact (NewError_of_valid_ints nowUTC args). Qed.

Lemma NewError_spec_witness :
  NewError 0 [ of_string "a"; of_int 404; of_error (errors_New "x"); of_int 500;
               of_other "bool"; of_string "b"; of_error (errors_New "y") ] =
    Return {| err := Some (errors_Join [errors_New "x"; errors_New "y"]);
              help := None; message := Some "a b"; request := None;
              Error_statusCode := 404; timeStamp := 0; properties := None;
              Error_headers := None |}.
Proof.
  apply (NewError_spec 0
           [ of_string "a"; of_int 404; of_error (errors_New "x"); of_int 500;
             of_other "bool"; of_string "b"; of_error (errors_New "y") ]).
  intros n Hn. cbn in Hn.
  apply elem_of_cons in Hn as [->|Hn]; [lia |].
  apply list_elem_of_singleton in Hn as ->. lia.
Defined.

(** X7.  Every Error that [NewError] returns has a status code in
    400..599, and so has the Response that [makeErrorResponse] makes of
    it: the Error passes the status guard, its status is not defaulted,
    and when the projection function returns a projection of it, the
    Response has the status of the Error, the negotiated content type and
    the marshalled projection as body, or is the 500 [plain/text] fallback
    when the projection fails to marshal. *)
Theorem NewError_response_status
    (nowUTC : time_Time) (range : gmap string any -> list (string * any))
    (ProjectError : ErrorInfo -> outcome any)
    (args : list any) (e : Error) (rq : Request) (p : any) :
  let e' := {| err := err e; help := help e; message := message e;
               request := Request_Request rq;
               Error_statusCode :=
                 coalesce [Error_statusCode e; http_StatusInternalServerError];
               timeStamp := coalesce [timeStamp e; nowUTC];
               properties := properties e; Error_headers := Error_headers e |} in
  NewError nowUTC args = Return e ->
  ProjectError (Error_info range e') = Return p ->
  400 <= Error_statusCode e <= 599
  /\ Error_statusCode e' = Error_statusCode e
  /\ exists (resp : Response) (t : list event),
       makeErrorResponse nowUTC range ProjectError e rq = (Return (e', resp), t)
       /\ 400 <= StatusCode resp <= 599
       /\ match MarshalContent rq p with
          | inl body =>
              resp = {| StatusCode := Error_statusCode e; ContentType := Accept rq;
                        Content := body; Response_headers := None |}
              /\ t = [ev_Marshal p (inl body)]
          | inr merr =>
              resp = {| StatusCode := 500; ContentType := "plain/text";
                        Content := bytes_of (fallback_body merr e');
                        Response_headers := None |}
              /\ head t = Some (ev_Marshal p (inr merr))
          end.
Proof.
  intros e' Hnew Hp.
  assert (Hsc : 400 <= Error_statusCode e <= 599).
  { assert (Hints : forall n : Z, n ∈ int_args args -> 400 <= n <= 599).
    { unfold NewError in Hnew.
      destruct (NewError_loop args _) as [vs|v] eqn:Hloop; [| discriminate].
      exact (NewError_loop_Return_ints _ _ _ Hloop). }
    rewrite (NewError_of_valid_ints nowUTC args Hints) in Hnew. injection Hnew as <-.
    cbn [Error_statusCode].
    destruct (int_args args) as [|n ints] eqn:Hi; cbn [head default]; [lia |].
    apply Hints. left. }
  split; [exact Hsc |].
  pose proof (makeErrorResponse_returns nowUTC range ProjectError e rq p
                ltac:(right; exact Hsc) Hp) as Hrun.
  assert (Hsc' : Error_statusCode e' = Error_statusCode e).
  { unfold e'. cbn [Error_statusCode]. rewrite coalesce_status_default.
    destruct (decide (Error_statusCode e = 0)); [lia | reflexivity]. }
  split; [exact Hsc' |].
  destruct (MarshalContent rq p) as [body|merr]; eexists _, _;
    (split; [exact Hrun |]); cbn [StatusCode].
  - fold e'. rewrite Hsc'. split; [lia |]. split; reflexivity.
  - split; [lia |]. split; reflexivity.
Qed.

Lemma NewError_response_status_witness :
  exists (e' : Error) (resp : Response) (t : list event),
    makeErrorResponse 0 range_sorted defaultProjectError
        error_404_explicit rq_renders = (Return (e', resp), t)
    /\ StatusCode resp = 404.
Proof.
  destruct (NewError_response_status 0 range_sorted defaultProjectError
              [of_int 404; of_Request (Some explicit)] error_404_explicit rq_renders
              (of_errorResponse
                 {| er_XMLName := "error"; er_Status := 404; er_Error := "Not Found";
                    er_Message := ""; er_Path := "/path"; er_Query := "";
                    er_Timestamp := 0; er_Help := ""; er_Additional := None |})
              eq_refl eq_refl)
    as (_ & _ & resp & t & Hrun & _ & Hresp).
  eexists _, resp, t. split; [exact Hrun |].
  destruct Hresp as [-> _]. reflexivity.
Defined.

(** [NewError] with a leading status code in 400..599, which is what the
    fixed-status factories call. *)
Lemma NewError_fixed_status (nowUTC : time_Time) (code : Z) (args : list any) :
  400 <= code <= 599 ->
  (forall e : Error,
     NewError nowUTC (of_int code :: args) = Return e -> Error_statusCode e = code)
  /\ ((exists v : error, NewError nowUTC (of_int code :: args) = Panic v) <->
      exists n : Z, of_int n ∈ args /\ (n < 400 \/ n > 599)).
Proof.
  intros Hc. split; [| split].
  - intros e Hnew. unfold NewError in Hnew.
    destruct (NewError_loop (of_int code :: args) _) as [vs|v] eqn:Hloop; [| discriminate].
    pose proof (NewError_loop_Return_ints _ _ _ Hloop) as Hints.
    pose proof (NewError_of_valid_ints nowUTC (of_int code :: args) Hints) as Hspec.
    unfold NewError in Hspec. rewrite Hloop in Hspec. rewrite Hspec in Hnew.
    injection Hnew as <-. reflexivity.
  - intros [v Hv]. unfold NewError in Hv.
    destruct (NewError_loop _ _) as [vs|v'] eqn:Hloop; [discriminate |].
    destruct (NewError_loop_panics _ _ _ Hloop) as (n & Hin & Hbad & _).
    exists n. split; [| exact Hbad].
    apply elem_of_cons in Hin as [[= ->]|Hin]; [lia | exact Hin].
  - intros (n & Hin & Hbad). unfold NewError.
    destruct (NewError_loop _ _) as [vs|v'] eqn:Hloop; [| eauto].
    pose proof (NewError_loop_Return_ints _ _ _ Hloop n) as Hok.
    specialize (Hok ltac:(apply elem_of_int_args; right; exact Hin)). lia.
Qed.

(** X8.  Each of the five fixed-status factories returns its own status
    whatever [int] arguments it is given, and still panics when one of
    them lies outside 400..599: it panics exactly then. *)
Theorem factories_fixed_status (nowUTC : time_Time) (args : list any) :
  let fixed (factory : time_Time -> list any -> outcome Error) (code : Z) :=
    (forall e : Error, factory nowUTC args = Return e -> Error_statusCode e = code)
    /\ ((exists v : error, factory nowUTC args = Panic v) <->
        exists n : Z, of_int n ∈ args /\ (n < 400 \/ n > 599)) in
  fixed BadRequest 400
  /\ fixed Unauthorized 401
  /\ fixed Forbidden 403
  /\ fixed NotFound 404
  /\ fixed InternalServerError 500.
Proof.
  cbv zeta.
  unfold BadRequest, Unauthorized, Forbidden, NotFound, InternalServerError.
  repeat split;
    try (intros e; apply NewError_fixed_status;
         unfold http_StatusBadRequest, http_StatusUnauthorized, http_StatusForbidden,
           http_StatusNotFound, http_StatusInternalServerError; lia);
    apply NewError_fixed_status;
    unfold http_StatusBadRequest, http_StatusUnauthorized, http_StatusForbidden,
      http_StatusNotFound, http_StatusInternalServerError; lia.
Qed.

Lemma factories_fixed_status_witness :
  (forall e : Error, BadRequest 0 [of_int 404] = Return e -> Error_statusCode e = 400)
  /\ (exists v : error, NotFound 0 [of_int 200] = Panic v)
  /\ exists v : error, InternalServerError 0 [of_string "x"; of_int 600] = Panic v.
Proof.
  split; [| split].
  - apply (proj1 (proj1 (factories_fixed_status 0 [of_int 404]))).
  - apply (proj2 (proj1 (proj2 (proj2 (proj2
             (factories_fixed_status 0 [of_int 200])))))).
    exists 200. split; [left | lia].
  - apply (proj2 (proj2 (proj2 (proj2 (proj2
             (factories_fixed_status 0 [of_string "x"; of_int 600])))))).
    exists 600. split; [right; left | lia].
Defined.

(** ** Responses: headers, values and the dispatcher's shortcuts *)

Lemma makeErrorResponse_ignores_request_and_headers
    (nowUTC : time_Time) (range : gmap string any -> list (string * any))
    (ProjectError : ErrorInfo -> outcome any)
    (e : Error) (r : option http_Request) (h : headers) (rq : Request) :
  makeErrorResponse nowUTC range ProjectError
      {| err := err e; help := help e; message := message e; request := r;
         Error_statusCode := Error_statusCode e; timeStamp := timeStamp e;
         properties := properties e; Error_headers := h |} rq
    ≫= (fun er => mret er.2) =
  makeErrorResponse nowUTC range ProjectError e rq ≫= (fun er => mret er.2).
Proof.
  unfold makeErrorResponse.
  cbn [err help message request Error_statusCode timeStamp properties Error_headers].
  destruct (decide _) as [Hbad|Hok]; [reflexivity |].
  unfold Error_info.
  cbn [err help message request Error_statusCode timeStamp properties Error_headers].
  unfold lift, call_MarshalContent, LogError, emit.
  destruct (ProjectError _) as [p|v]; [| reflexivity].
  rewrite !M_bind_Return.
  destruct (MarshalContent rq p); rewrite ?M_bind_Return; reflexivity.
Qed.

(** X9.  The headers set on an Error never reach its Response: the
    Response that [makeErrorResponse] returns has no additional header, and
    the Response and the calls made are the same whatever headers the Error
    carries. *)
Theorem Error_headers_never_sent
    (nowUTC : time_Time) (range : gmap string any -> list (string * any))
    (ProjectError : ErrorInfo -> outcome any)
    (e : Error) (h : headers) (rq : Request) :
  (forall (e' : Error) (resp : Response) (t : list event),
     makeErrorResponse nowUTC range ProjectError e rq = (Return (e', resp), t) ->
     Response_headers resp = None)
  /\ Error_makeResponse nowUTC range ProjectError (Error_set_headers e h) rq
       ≫= (fun er => mret er.2) =
     Error_makeResponse nowUTC range ProjectError e rq ≫= (fun er => mret er.2).
Proof.
  split.
  - unfold makeErrorResponse. intros e' resp t.
    destruct (decide _); [discriminate |].
    unfold lift, call_MarshalContent, LogError, emit.
    destruct (ProjectError _) as [p|v]; [| discriminate].
    rewrite !M_bind_Return.
    destruct (MarshalContent rq p); rewrite ?M_bind_Return;
      intros [= <- <- _]; reflexivity.
  - unfold Error_makeResponse, Error_set_headers.
    apply makeErrorResponse_ignores_request_and_headers.
Qed.

(** X10.  A Response that [makeResultResponse] returns without a
    failed marshaller call carries the headers of the Result and its
    status code, 200 standing in for an unset one; after a failed
    marshaller call the Response carries no header of the Result and has
    status 500. *)
Theorem makeResultResponse_headers
    (nowUTC : time_Time) (fmt_v : any -> string)
    (range : gmap string any -> list (string * any))
    (ProjectError : ErrorInfo -> outcome any)
    (result : Result) (rq : Request) (resp : Response) (t : list event) :
  makeResultResponse nowUTC fmt_v range ProjectError result rq = (Return resp, t) ->
  ((forall (v : any) (merr : error), head t <> Some (ev_Marshal v (inr merr))) ->
   Response_headers resp = Result_headers result
   /\ StatusCode resp = (if decide (Result_statusCode result = 0) then 200
                         else Result_statusCode result))
  /\ (forall (v : any) (merr : error),
        head t = Some (ev_Marshal v (inr merr)) ->
        Response_headers resp = None /\ StatusCode resp = 500).
Proof.
  assert (Hst : coalesce [Result_statusCode result; http_StatusOK] =
                if decide (Result_statusCode result = 0) then 200
                else Result_statusCode result).
  { unfold http_StatusOK. cbn [coalesce]. unfold zero, Zero_int.
    repeat case_decide; try reflexivity; try contradiction; discriminate. }
  unfold makeResultResponse. rewrite Hst.
  destruct (contentType result) as [ct|].
  { destruct (is_nil (content result)); cbn [negb].
    - intros [= <- <-]. split; [intros _; split; reflexivity | intros v merr [=]].
    - destruct (content result); try (intros [=]; fail).
      intros [= <- <-]. split; [intros _; split; reflexivity | intros v merr [=]]. }
  destruct (is_nil (content result)).
  { intros [= <- <-]. split; [intros _; split; reflexivity | intros v merr [=]]. }
  unfold call_MarshalContent, LogError, emit, lift, Error_makeResponse.
  rewrite M_bind_Return.
  destruct (MarshalContent rq (content result)) as [body|merr0].
  { intros [= <- <-]. split; [intros _; split; reflexivity | intros v merr [=]]. }
  rewrite InternalServerError_of_marshal_failure. rewrite !M_bind_Return.
  destruct (makeErrorResponse nowUTC range ProjectError _ rq)
    as [[[e' r']|pv] t'] eqn:Hmk.
  2:{ rewrite M_bind_Panic. cbn [fst snd]. intros [=]. }
  rewrite !M_bind_Return. cbn [fst snd mret M_ret app].
  intros Hrun. injection Hrun as Hr Ht. subst resp t. split.
  { intros Hno. exfalso. eapply Hno. reflexivity. }
  intros v merr _.
  revert Hmk. unfold makeErrorResponse.
  destruct (decide (_ /\ _)); [discriminate |].
  unfold lift, call_MarshalContent, LogError, emit.
  destruct (ProjectError _) as [p|pv]; [| discriminate].
  rewrite !M_bind_Return.
  destruct (MarshalContent rq p); rewrite ?M_bind_Return;
    intros [= _ <- _]; split; reflexivity.
Qed.

Lemma makeResultResponse_headers_witness :
  exists resp : Response,
    (makeResultResponse 0 render_v range_sorted defaultProjectError
       {| content := of_string "v"; contentType := None;
          Result_headers := Some {[ "Location" := of_string "/x" ]};
          Result_statusCode := 201 |} rq_renders).1 = Return resp
    /\ Response_headers resp = Some {[ "Location" := of_string "/x" ]}
    /\ StatusCode resp = 201.
Proof.
  destruct (makeResultResponse 0 render_v range_sorted defaultProjectError
       {| content := of_string "v"; contentType := None;
          Result_headers := Some {[ "Location" := of_string "/x" ]};
          Result_statusCode := 201 |} rq_renders) as [o t] eqn:Hrun.
  assert (Ho : exists resp, o = Return resp /\ t = [ev_Marshal (of_string "v") (inl (bytes_of "v"))]).
  { vm_compute in Hrun. injection Hrun as <- <-. eexists. split; reflexivity. }
  destruct Ho as (resp & -> & ->).
  destruct (makeResultResponse_headers 0 render_v range_sorted defaultProjectError
              _ rq_renders resp _ Hrun) as [Hok _].
  exists resp. split; [reflexivity |].
  apply Hok. intros v merr [=].
Defined.


(** X11.  [WithValue] with a value that is not nil replaces whatever
    content and content type were set before: when the value marshals, the
    Response has the negotiated content type, the marshalled value as body
    and the status and headers of the Result, after one marshaller call.
    [WithValue] with nil leaves a Result without content: the Response has
    no body and no content type, and no marshaller is called. *)
Theorem WithValue_response
    (nowUTC : time_Time) (fmt_v : any -> string)
    (range : gmap string any -> list (string * any))
    (ProjectError : ErrorInfo -> outcome any)
    (r : Result) (ct : string) (bytes : list Byte.byte)
    (v : any) (rq : Request) (body : list Byte.byte) :
  is_nil v = false ->
  MarshalContent rq v = inl body ->
  makeResultResponse nowUTC fmt_v range ProjectError
      (WithValue (WithContent r ct bytes) v) rq =
    (Return {| StatusCode := coalesce [Result_statusCode r; http_StatusOK];
               ContentType := Accept rq; Content := body;
               Response_headers := Result_headers r |},
     [ev_Marshal v (inl body)])
  /\ makeResultResponse nowUTC fmt_v range ProjectError
       (WithValue (WithContent r ct bytes) of_nil) rq =
     (Return {| StatusCode := coalesce [Result_statusCode r; http_StatusOK];
                ContentType := ""; Content := [];
                Response_headers := Result_headers r |}, []).
Proof.
  intros Hnil Hm. split; [| reflexivity].
  unfold makeResultResponse, WithValue, WithContent.
  cbn [content contentType Result_headers Result_statusCode].
  rewrite Hnil. unfold call_MarshalContent. rewrite M_bind_Return, Hm. reflexivity.
Qed.

Lemma WithValue_response_witness :
  makeResultResponse 0 render_v range_sorted defaultProjectError
      (WithValue (WithContent Created "text/csv" (bytes_of "a,b")) (of_int 7))
      rq_renders =
    (Return {| StatusCode := 201; ContentType := "application/json";
               Content := bytes_of "7"; Response_headers := None |},
     [ev_Marshal (of_int 7) (inl (bytes_of "7"))]).
Proof.
  exact (proj1 (WithValue_response 0 render_v range_sorted defaultProjectError
                  Created "text/csv" (bytes_of "a,b") (of_int 7) rq_renders
                  (bytes_of "7") eq_refl eq_refl)).
Defined.

(** X12.  The dispatcher's shortcuts agree with the builders.  Returning
    an [error] gives the Response, and the calls, of returning
    [InternalServerError(err)]; returning an [int] in 100..599 those of
    returning [Status] of it; returning bytes those of returning
    [OK().WithContent("application/octet-stream", bytes)], or [NoContent()]
    when there are none; and returning any other value those of returning
    [OK().WithValue(value)]. *)
Theorem dispatcher_shortcuts
    (nowUTC : time_Time) (fmt_v : any -> string) (fmt_Problem : Problem -> string)
    (range : gmap string any -> list (string * any))
    (ProjectError : ErrorInfo -> outcome any) (URL_String : URL -> string)
    (rq : Request) :
  let dispatch :=
    Request_makeResponse nowUTC fmt_v fmt_Problem range ProjectError URL_String rq in
  (forall (x : error) (e : Error),
     InternalServerError nowUTC [of_error x] = Return e ->
     dispatch (ret_value (of_error x)) = dispatch (ret_Error e))
  /\ (forall (n : Z) (r : Result),
        Status n = Return r ->
        dispatch (ret_value (of_int n)) = dispatch (ret_Result r))
  /\ (forall b : list Byte.byte,
        b <> [] ->
        dispatch (ret_value (of_bytes b)) =
        dispatch (ret_Result (WithContent OK "application/octet-stream" b)))
  /\ dispatch (ret_value (of_bytes [])) = dispatch (ret_Result NoContent)
  /\ (forall v : any,
        (forall x, v <> of_error x) -> (forall b, v <> of_bytes b) ->
        (forall n, v <> of_int n) ->
        dispatch (ret_value v) = dispatch (ret_Result (WithValue OK v))).
Proof.
  intros dispatch. unfold dispatch, Request_makeResponse.
  split; [| split; [| split; [| split]]].
  - intros x e [= <-]. unfold Error_makeResponse.
    cbn [err help message request Error_statusCode timeStamp properties Error_headers].
    change (InternalServerError nowUTC [of_error x; of_Request (Request_Request rq)])
      with (Return {| err := Some x; help := None; message := None;
                      request := Request_Request rq;
                      Error_statusCode :=
                        coalesce [ifNotNil (Some http_StatusInternalServerError);
                                  http_StatusInternalServerError];
                      timeStamp := nowUTC; properties := None;
                      Error_headers := None |}).
    unfold lift. rewrite M_bind_Return. cbn [fst snd app]. 
    destruct (makeErrorResponse _ _ _ _ _ ≫= _) as [o t]. reflexivity.
  - intros n r. unfold Status.
    destruct (decide (n < 100 \/ n > 599)) as [Hbad|Hok]; [discriminate |].
    intros [= <-]. unfold Result_makeResponse, makeResultResponse.
    cbn [content contentType Result_headers Result_statusCode is_nil].
    cbn [coalesce]. destruct (decide (n = zero)) as [Hz|_]; [| reflexivity].
    exfalso. change (n = 0) in Hz. lia.
  - intros b Hb. destruct (decide (length b = 0%nat)) as [Hl|_].
    { destruct b; [contradiction | discriminate]. }
    reflexivity.
  - reflexivity.
  - intros v He Hb Hn.
    destruct v; try reflexivity;
      [exfalso; eapply Hn | exfalso; eapply Hb | exfalso; eapply He]; reflexivity.
Qed.

Lemma dispatcher_shortcuts_witness :
  Request_makeResponse 0 render_v render_Problem range_sorted defaultProjectError
      render_URL rq_renders (ret_value (of_int 202)) =
    Request_makeResponse 0 render_v render_Problem range_sorted defaultProjectError
      render_URL rq_renders (ret_Result Accepted)
  /\ Request_makeResponse 0 render_v render_Problem range_sorted defaultProjectError
       render_URL rq_renders (ret_value (of_string "v")) =
     Request_makeResponse 0 render_v render_Problem range_sorted defaultProjectError
       render_URL rq_renders (ret_Result (WithValue OK (of_string "v"))).
Proof.
  pose proof (dispatcher_shortcuts 0 render_v render_Problem range_sorted
                defaultProjectError render_URL rq_renders)
    as (_ & Hint & _ & _ & Hval).
  split.
  - apply (Hint 202 Accepted). reflexivity.
  - apply Hval; discriminate.
Defined.

(** ** Problem responses *)

(** The members [makeProblemResponse] derives from the structured fields
    of a Problem, before the properties are added. *)
Lemma Problem_structured_lookup (URL_String : URL -> string) (p : Problem)
    (k : string) :
  let response : gmap string any := ∅ in
  let response :=
    match Type_ p with
    | Some u => <["type" := of_string (URL_String u)]> response
    | None => response
    end in
  let response :=
    if decide (Title p <> "") then <["title" := of_string (Title p)]> response
    else response in
  let response :=
    if decide (Status_ p > 0) then <["status" := of_int (Status_ p)]> response
    else response in
  let response :=
    if decide (Detail p <> "") then <["detail" := of_string (Detail p)]> response
    else response in
  let response :=
    match Instance_ p with
    | Some u => <["instance" := of_string (URL_String u)]> response
    | None => response
    end in
  response !! k =
    if decide (k = "type") then (fun u => of_string (URL_String u)) <$> Type_ p
    else if decide (k = "title")
         then (if decide (Title p = "") then None else Some (of_string (Title p)))
    else if decide (k = "status")
         then (if decide (Status_ p > 0) then Some (of_int (Status_ p)) else None)
    else if decide (k = "detail")
         then (if decide (Detail p = "") then None else Some (of_string (Detail p)))
    else if decide (k = "instance")
         then (fun u => of_string (URL_String u)) <$> Instance_ p
    else None.
Proof.
  cbv zeta.
  destruct (Type_ p), (Instance_ p);
    repeat case_decide; subst; simplify_map_eq; try reflexivity; try congruence.
Qed.

(** X13.  The value [makeProblemResponse] hands to the marshaller.  A
    Problem with no member at all makes it panic with an error wrapping
    [ErrInvalidOperation] before anything is marshalled or logged.
    Otherwise the first thing it does is to marshal a map in which every
    property of the Problem appears under its key, and every key that is
    not a property holds the structured field of that name, when it is
    set: a property named as a structured field replaces that field in the
    body. *)
Theorem makeProblemResponse_members
    (nowUTC : time_Time) (fmt_Problem : Problem -> string)
    (range : gmap string any -> list (string * any))
    (ProjectError : ErrorInfo -> outcome any) (URL_String : URL -> string)
    (p : Problem) (rq : Request) :
  (forall m0 : gmap string any, range m0 ≡ₚ map_to_list m0) ->
  let property k := match props p with Some pm => pm !! k | None => None end in
  exists m : gmap string any,
    (forall k v, property k = Some v -> m !! k = Some v)
    /\ (forall k, property k = None ->
          m !! k =
            if decide (k = "type") then (fun u => of_string (URL_String u)) <$> Type_ p
            else if decide (k = "title")
                 then (if decide (Title p = "") then None
                       else Some (of_string (Title p)))
            else if decide (k = "status")
                 then (if decide (Status_ p > 0) then Some (of_int (Status_ p))
                       else None)
            else if decide (k = "detail")
                 then (if decide (Detail p = "") then None
                       else Some (of_string (Detail p)))
            else if decide (k = "instance")
                 then (fun u => of_string (URL_String u)) <$> Instance_ p
            else None)
    /\ (m = ∅ ->
          exists v,
            makeProblemResponse nowUTC fmt_Problem range ProjectError URL_String p rq
              = (Panic v, [])
            /\ errors_Is v (error_Error ErrInvalidOperation) = true)
    /\ (m <> ∅ ->
          exists o t,
            makeProblemResponse nowUTC fmt_Problem range ProjectError URL_String p rq
              = (o, ev_Marshal (of_map m) (MarshalContent rq (of_map m)) :: t)).
Proof.
  intros Hrange property.
  pose proof (Problem_structured_lookup URL_String p) as Hbase. cbv zeta in Hbase.
  unfold makeProblemResponse.
  match goal with
  | |- context [match props p with Some m => assign_all ?b (range m) | None => _ end] =>
      set (base := b) in *
  end.
  set (response := match props p with
                   | Some m => assign_all base (range m)
                   | None => base
                   end).
  assert (Hlook : forall k, response !! k =
            match property k with Some v => Some v | None => base !! k end).
  { intros k. unfold response, property. destruct (props p) as [pm|]; [| reflexivity].
    assert (Hnd : NoDup (range pm).*1).
    { rewrite (Hrange pm). apply NoDup_fst_map_to_list. }
    rewrite assign_all_lookup by exact Hnd.
    rewrite <- (list_to_map_proper (map_to_list pm) (range pm))
      by (apply NoDup_fst_map_to_list || (symmetry; apply Hrange)).
    rewrite list_to_map_to_list. reflexivity. }
  exists response. split; [| split; [| split]].
  - intros k v Hk. rewrite Hlook, Hk. reflexivity.
  - intros k Hk. rewrite Hlook, Hk. apply Hbase.
  - intros Hempty. rewrite Hempty, map_size_empty.
    destruct (decide (0%nat = 0%nat)) as [_|Hne]; [| contradiction].
    eexists. split; reflexivity.
  - intros Hne.
    destruct (decide (size response = 0%nat)) as [Hz|_].
    { apply map_size_empty_inv in Hz. contradiction. }
    unfold call_MarshalContent. rewrite M_bind_Return.
    destruct (match MarshalContent rq (of_map response) with
              | inl _ => _ | inr _ => _ end) as [o t].
    exists o, t. reflexivity.
Qed.

Lemma makeProblemResponse_members_witness :
  exists m : gmap string any,
    m !! "status" = Some (of_string "gone")
    /\ m !! "detail" = Some (of_string "not found")
    /\ exists o t,
         makeProblemResponse 0 render_Problem range_sorted defaultProjectError render_URL
             {| Type_ := None; Status_ := 404; Instance_ := None;
                Detail := "not found"; Title := "";
                props := Some {[ "status" := of_string "gone" ]} |} rq_renders
           = (o, ev_Marshal (of_map m) (MarshalContent rq_renders (of_map m)) :: t).
Proof.
  destruct (makeProblemResponse_members 0 render_Problem range_sorted
              defaultProjectError render_URL
              {| Type_ := None; Status_ := 404; Instance_ := None;
                 Detail := "not found"; Title := "";
                 props := Some {[ "status" := of_string "gone" ]} |} rq_renders
              (fun m => reflexivity (map_to_list m)))
    as (m & Hprop & Hfield & _ & Hne).
  exists m. split; [apply Hprop; reflexivity |].
  split; [rewrite Hfield; reflexivity |].
  apply Hne. intros ->.
  specialize (Hprop "status" (of_string "gone") eq_refl).
  rewrite lookup_empty in Hprop. discriminate.
Defined.

(** A 500 Error that [makeErrorResponse] turns into a Response gives a
    Response with status 500 and no headers. *)
Lemma makeErrorResponse_of_500
    (nowUTC : time_Time) (range : gmap string any -> list (string * any))
    (ProjectError : ErrorInfo -> outcome any)
    (e : Error) (rq : Request) (e' : Error) (resp : Response) (t : list event) :
  Error_statusCode e = 500 ->
  makeErrorResponse nowUTC range ProjectError e rq = (Return (e', resp), t) ->
  StatusCode resp = 500 /\ Response_headers resp = None.
Proof.
  intros Hsc. unfold makeErrorResponse. rewrite Hsc.
  destruct (decide (_ /\ _)) as [[_ [Hlt|Hgt]]|_]; [lia | lia |].
  unfold lift, call_MarshalContent, LogError, emit.
  destruct (ProjectError _) as [p|pv]; [| discriminate].
  rewrite !M_bind_Return.
  destruct (MarshalContent rq p); rewrite ?M_bind_Return;
    intros [= _ <- _]; split; reflexivity.
Qed.

(** X14.  A Problem that has a member is turned into a Response with one
    marshaller call on the map of its members: its properties, and under
    every key that is not a property the structured field of that name,
    when it is set.  When the call succeeds, the Response has the status of
    the Problem (500 when it is unset), what the marshaller returned as
    body and the content type application/problem+json, whatever content
    type was negotiated, and nothing is logged.  When it fails, the failure
    is logged and the Response is that of the 500 Error wrapping the
    failure: it has status 500. *)
Theorem makeProblemResponse_response
    (nowUTC : time_Time) (fmt_Problem : Problem -> string)
    (range : gmap string any -> list (string * any))
    (ProjectError : ErrorInfo -> outcome any) (URL_String : URL -> string)
    (p : Problem) (rq : Request) (m : gmap string any) :
  (forall m0 : gmap string any, range m0 ≡ₚ map_to_list m0) ->
  (forall k,
     m !! k =
       match match props p with Some pm => pm !! k | None => None end with
       | Some v => Some v
       | None =>
           if decide (k = "type") then (fun u => of_string (URL_String u)) <$> Type_ p
           else if decide (k = "title")
                then (if decide (Title p = "") then None
                      else Some (of_string (Title p)))
           else if decide (k = "status")
                then (if decide (Status_ p > 0) then Some (of_int (Status_ p))
                      else None)
           else if decide (k = "detail")
                then (if decide (Detail p = "") then None
                      else Some (of_string (Detail p)))
           else if decide (k = "instance")
                then (fun u => of_string (URL_String u)) <$> Instance_ p
           else None
       end) ->
  m <> ∅ ->
  match MarshalContent rq (of_map m) with
  | inl body =>
      makeProblemResponse nowUTC fmt_Problem range ProjectError URL_String p rq =
        (Return {| StatusCode := coalesce [Status_ p; http_StatusInternalServerError];
                   ContentType := "application/problem+json";
                   Content := body; Response_headers := None |},
         [ev_Marshal (of_map m) (inl body)])
  | inr merr =>
      let answer :=
        makeErrorResponse nowUTC range ProjectError
          {| err := Some merr; help := None; message := None;
             request := Request_Request rq; Error_statusCode := 500;
             timeStamp := nowUTC; properties := None; Error_headers := None |} rq
          ≫= (fun er => mret er.2) in
      makeProblemResponse nowUTC fmt_Problem range ProjectError URL_String p rq =
        (answer.1,
         ev_Marshal (of_map m) (inr merr)
         :: ev_LogError {| ie_Err := Some merr;
                           ie_Message := "error marshalling Problem response";
                           ie_Help := "Problem: " ++ fmt_Problem p;
                           ie_Request := Request_Request rq;
                           ie_ContentType := "" |}
         :: answer.2)
      /\ forall resp : Response,
           answer.1 = Return resp ->
           StatusCode resp = 500 /\ Response_headers resp = None
  end.
Proof.
  intros Hrange Hm Hne.
  pose proof (Problem_structured_lookup URL_String p) as Hbase. cbv zeta in Hbase.
  unfold makeProblemResponse.
  match goal with
  | |- context [match props p with Some m => assign_all ?b (range m) | None => _ end] =>
      set (base := b) in *
  end.
  set (response := match props p with
                   | Some m => assign_all base (range m)
                   | None => base
                   end).
  assert (Heq : response = m).
  { apply map_eq. intros k. rewrite (Hm k), <- (Hbase k). unfold response.
    destruct (props p) as [pm|]; [| reflexivity].
    assert (Hnd : NoDup (range pm).*1).
    { rewrite (Hrange pm). apply NoDup_fst_map_to_list. }
    rewrite assign_all_lookup by exact Hnd.
    rewrite <- (list_to_map_proper (map_to_list pm) (range pm))
      by (apply NoDup_fst_map_to_list || (symmetry; apply Hrange)).
    rewrite list_to_map_to_list. reflexivity. }
  rewrite Heq. clear Heq response.
  destruct (decide (size m = 0%nat)) as [Hz|_].
  { apply map_size_empty_inv in Hz. contradiction. }
  unfold call_MarshalContent. rewrite M_bind_Return.
  destruct (MarshalContent rq (of_map m)) as [body|merr] eqn:Hmc.
  - reflexivity.
  - cbv zeta. unfold LogError. rewrite M_bind_emit.
    change (InternalServerError nowUTC [of_error merr; of_Request (Request_Request rq)])
      with (Return {| err := Some merr; help := None; message := None;
                      request := Request_Request rq;
                      Error_statusCode := 500;
                      timeStamp := nowUTC; properties := None;
                      Error_headers := None |}).
    unfold lift, Error_makeResponse. rewrite !M_bind_Return.
    cbn [fst snd app]. split; [reflexivity |].
    intros resp.
    destruct (makeErrorResponse nowUTC range ProjectError _ rq) as [[[e' r']|pv] t'] eqn:Hmk.
    2:{ rewrite M_bind_Panic. cbn [fst]. intros [=]. }
    rewrite M_bind_Return. cbn [fst snd mret M_ret]. intros [= <-].
    apply makeErrorResponse_of_500 in Hmk; [exact Hmk | reflexivity].
Qed.

Lemma makeProblemResponse_response_witness :
  makeProblemResponse 0 render_Problem range_sorted defaultProjectError render_URL
      {| Type_ := None; Status_ := 404; Instance_ := None; Detail := "not found";
         Title := ""; props := None |} rq_renders =
    (Return {| StatusCode := 404; ContentType := "application/problem+json";
               Content := bytes_of "?"; Response_headers := None |},
     [ev_Marshal (of_map {[ "status" := of_int 404;
                            "detail" := of_string "not found" ]})
                 (inl (bytes_of "?"))]).
Proof.
  apply (makeProblemResponse_response 0 render_Problem range_sorted
           defaultProjectError render_URL
           {| Type_ := None; Status_ := 404; Instance_ := None;
              Detail := "not found"; Title := ""; props := None |} rq_renders
           {[ "status" := of_int 404; "detail" := of_string "not found" ]}
           (fun m => reflexivity (map_to_list m))).
  - intros k. cbn [props Type_ Title Status_ Detail Instance_].
    destruct (decide (k = "type")) as [->|Htype]; [reflexivity |].
    destruct (decide (k = "title")) as [->|Htitle]; [reflexivity |].
    destruct (decide (k = "status")) as [->|Hstatus]; [reflexivity |].
    destruct (decide (k = "detail")) as [->|Hdetail]; [reflexivity |].
    rewrite lookup_insert_ne by congruence.
    rewrite lookup_singleton_ne by congruence.
    destruct (decide (k = "instance")); reflexivity.
  - intros Hempty.
    apply (f_equal (fun x : gmap string any => x !! "status")) in Hempty.
    discriminate Hempty.
Defined.

(** The status code [NewProblem] is left with after its argument loop. *)
Lemma NewProblem_loop_status (range : gmap string any -> list (string * any))
    (args : list any) (p0 p : Problem) :
  NewProblem_loop range args p0 = Return p ->
  coalesce [Status_ p; http_StatusInternalServerError] =
    coalesce [default (Status_ p0) (last (int_args args));
              http_StatusInternalServerError].
Proof.
  revert p0. induction args as [|a rest IH]; intros p0.
  - intros [= <-]. reflexivity.
  - cbn [NewProblem_loop].
    destruct (NewProblem_step range p0 a) as [p1|v] eqn:Hstep; [| discriminate].
    intros Hloop. rewrite (IH _ Hloop). clear IH Hloop.
    destruct a as [ | n | s | b | e | r | u | [u|] | m | er | o ];
      cbn in Hstep; try discriminate; injection Hstep as <-; cbn [Status_];
      change (int_args (?x :: rest)) with
        (match x with of_int n => [n] | _ => [] end ++ int_args rest)%list;
      cbn [app]; try reflexivity.
    + rewrite last_cons. destruct (last (int_args rest)); reflexivity.
    + destruct (last (int_args rest)); [reflexivity |]. cbn [default].
      rewrite !coalesce_status_default. change (@zero Z _) with 0. unfold http_StatusInternalServerError. repeat case_decide; lia.
Qed.

Lemma NewProblem_loop_returns (range : gmap string any -> list (string * any))
    (args : list any) (p0 : Problem) :
  (exists p, NewProblem_loop range args p0 = Return p)
  <-> (forall a, a ∈ args -> NewProblem_supports a = true /\ a <> of_URLptr None).
Proof.
  revert p0. induction args as [|a rest IH]; intros p0.
  - split; [intros _ a Ha; inversion Ha | intros _; eexists; reflexivity].
  - cbn [NewProblem_loop]. split.
    + intros [p Hp] a' Ha'.
      destruct (NewProblem_step range p0 a) as [p1|v] eqn:Hstep; [| discriminate].
      apply elem_of_cons in Ha' as [->|Hin].
      * destruct a as [ | n | s | b | e | r | u | [u|] | m | er | o ];
          cbn in Hstep; try discriminate; split; try reflexivity; discriminate.
      * eapply IH; [eexists; exact Hp | exact Hin].
    + intros Hall.
      destruct (Hall a) as [Hsup Hnil]; [left |].
      assert (Hstep : exists p1, NewProblem_step range p0 a = Return p1).
      { destruct a as [ | n | s | b | e | r | u | [u|] | m | er | o ];
          cbn in Hsup; try discriminate; try (eexists; reflexivity).
        contradiction. }
      destruct Hstep as [p1 ->]. apply IH. intros a' Ha'. apply Hall. now right.
Qed.

(** X15.  [NewProblem] returns a Problem exactly when every argument is of
    a supported type and no URL pointer among them is nil; it panics
    otherwise.  The Problem it returns has the last status code among the
    arguments when there is one and it is not zero, and status 500
    otherwise; its status is never zero, and it has a detail whenever its
    status has a standard text. *)
Theorem NewProblem_status (range : gmap string any -> list (string * any))
    (args : list any) :
  ((exists p, NewProblem range args = Return p)
   <-> (forall a, a ∈ args -> NewProblem_supports a = true /\ a <> of_URLptr None))
  /\ (forall p, NewProblem range args = Return p ->
        Status_ p = coalesce [default 0 (last (int_args args));
                              http_StatusInternalServerError]
        /\ Status_ p <> 0
        /\ (http_StatusText (Status_ p) <> "" -> Detail p <> "")).
Proof.
  split.
  - rewrite <- (NewProblem_loop_returns range args
                  {| Type_ := None; Status_ := 0; Instance_ := None; Detail := "";
                     Title := ""; props := None |}).
    unfold NewProblem. split.
    + intros [p Hp]. destruct (NewProblem_loop _ _ _) as [p'|]; [| discriminate].
      eexists. reflexivity.
    + intros [p ->]. eexists. reflexivity.
  - intros p. unfold NewProblem.
    destruct (NewProblem_loop _ _ _) as [p'|] eqn:Hloop; [| discriminate].
    intros [= <-]. cbn [Status_ Detail].
    change (if decide (Status_ p' = zero) then http_StatusInternalServerError
            else Status_ p')
      with (coalesce [Status_ p'; http_StatusInternalServerError]).
    rewrite (NewProblem_loop_status _ _ _ _ Hloop). cbn [Status_ default].
    set (status := coalesce [default 0 (last (int_args args));
                             http_StatusInternalServerError]).
    split; [reflexivity |]. split.
    + unfold status. rewrite coalesce_status_default.
      case_decide; [discriminate | assumption].
    + intros Htext.
      destruct (decide (Detail p' = zero)) as [_|Hne].
      * destruct (decide (_ = zero)) as [Hz|_]; [| assumption].
        exfalso. apply Htext. exact Hz.
      * exact Hne.
Qed.

Lemma NewProblem_status_witness :
  exists p,
    NewProblem range_sorted [of_int 404; of_error (errors_New "boom"); of_int 0] = Return p
    /\ Status_ p = 500 /\ Detail p <> "".
Proof.
  destruct (NewProblem_status range_sorted
              [of_int 404; of_error (errors_New "boom"); of_int 0]) as [[_ Hret] Hst].
  destruct Hret as [p Hp].
  { intros a Ha. repeat (apply elem_of_cons in Ha as [->|Ha]);
      [split; [reflexivity | discriminate] .. | inversion Ha]. }
  exists p. split; [exact Hp |].
  destruct (Hst p Hp) as (Hs & _ & Hd). split; [exact Hs |].
  apply Hd. rewrite Hs. discriminate.
Defined.

(** ** The handler: one status line per request *)














(** ** Reading and decoding the request body *)

(** An [error] value returned by an endpoint function is answered with
    status 500. *)
Lemma Request_makeResponse_error_500
    (nowUTC : time_Time) (fmt_v : any -> string) (fmt_Problem : Problem -> string)
    (range : gmap string any -> list (string * any))
    (ProjectError : ErrorInfo -> outcome any) (URL_String : URL -> string)
    (rq : Request) (x : error) (resp : Response) (t : list event) :
  Request_makeResponse nowUTC fmt_v fmt_Problem range ProjectError URL_String rq
    (ret_value (of_error x)) = (Return resp, t) ->
  StatusCode resp = 500.
Proof.
  unfold Request_makeResponse, Error_makeResponse.
  change (InternalServerError nowUTC [of_error x; of_Request (Request_Request rq)])
    with (Return {| err := Some x; help := None; message := None;
                    request := Request_Request rq; Error_statusCode := 500;
                    timeStamp := nowUTC; properties := None;
                    Error_headers := None |}).
  unfold lift. rewrite M_bind_Return.
  destruct (makeErrorResponse nowUTC range ProjectError _ rq) as [[[e' r']|pv] t'] eqn:Hmk.
  2:{ rewrite M_bind_Panic. cbn [fst snd]. intros [=]. }
  rewrite M_bind_Return. cbn [fst snd mret M_ret]. intros [= <- _].
  apply makeErrorResponse_of_500 in Hmk as [Hst _]; [exact Hst | reflexivity].
Qed.

(** A 400 Error returned by an endpoint function is answered with status
    400, or with status 500 when its projection fails to marshal. *)
Lemma Request_makeResponse_Error_400
    (nowUTC : time_Time) (fmt_v : any -> string) (fmt_Problem : Problem -> string)
    (range : gmap string any -> list (string * any))
    (ProjectError : ErrorInfo -> outcome any) (URL_String : URL -> string)
    (rq : Request) (e : Error) (resp : Response) (t : list event) :
  Error_statusCode e = 400 ->
  Request_makeResponse nowUTC fmt_v fmt_Problem range ProjectError URL_String rq
    (ret_Error e) = (Return resp, t) ->
  (exists p body, t = [ev_Marshal p (inl body)] /\ StatusCode resp = 400)
  \/ (exists p merr t', t = ev_Marshal p (inr merr) :: t' /\ StatusCode resp = 500).
Proof.
  intros Hsc. unfold Request_makeResponse, Error_makeResponse, makeErrorResponse.
  cbn [Error_statusCode err help message request timeStamp properties Error_headers].
  rewrite Hsc.
  destruct (decide (_ /\ _)) as [[_ [Hlt|Hgt]]|_]; [lia | lia |].
  unfold lift, call_MarshalContent, LogError, emit.
  destruct (ProjectError _) as [p|pv]; [| rewrite !M_bind_Panic; discriminate].
  rewrite !M_bind_Return.
  destruct (MarshalContent rq p) as [body|merr]; rewrite ?M_bind_Return;
    cbn [fst snd mret M_ret app]; intros [= <- <-].
  - left. exists p, body. split; reflexivity.
  - right. eexists p, merr, _. split; reflexivity.
Qed.

(** X18.  [HandleRequest] of package restapi, with the dispatcher.  When
    the body cannot be read, or is not empty and cannot be decoded, the
    handler function is not called and the value returned is an [error],
    which every request answers with status 500; the body is left as it was
    in the first case and replaced by a reader of the bytes read in the
    second.  An empty body calls the handler function with nil, and a body
    that decodes calls it with the decoded value. *)
Theorem HandleRequest_body
    (T : Type)
    (nowUTC : time_Time) (fmt_v : any -> string) (fmt_Problem : Problem -> string)
    (range : gmap string any -> list (string * any))
    (ProjectError : ErrorInfo -> outcome any) (URL_String : URL -> string)
    (jsonUnmarshal : list Byte.byte -> T + error)
    (h : option T -> outcome returned) (rq : Request) :
  (forall read : list Byte.byte + error,
     (exists e, read = inr e)
     \/ (exists body e, read = inl body /\ body <> [] /\ jsonUnmarshal body = inr e) ->
     exists x : error,
       (forall h', (HandleRequest T read jsonUnmarshal h').1 = Return (ret_value (of_error x)))
       /\ (HandleRequest T read jsonUnmarshal h).2
            = match read with inl body => Some body | inr _ => None end
       /\ forall resp t,
            Request_makeResponse nowUTC fmt_v fmt_Problem range ProjectError URL_String
              rq (ret_value (of_error x)) = (Return resp, t) ->
            StatusCode resp = 500)
  /\ HandleRequest T (inl []) jsonUnmarshal h = (h None, Some [])
  /\ (forall body c,
        body <> [] -> jsonUnmarshal body = inl c ->
        HandleRequest T (inl body) jsonUnmarshal h = (h (Some c), Some body)).
Proof.
  split; [| split].
  - intros read [[e ->]|(body & e & -> & Hne & Hdec)].
    + eexists. split; [intros h'; reflexivity |]. split; [reflexivity |].
      intros resp t. apply Request_makeResponse_error_500.
    + unfold HandleRequest. destruct (decide (length body = 0%nat)) as [Hl|_].
      { destruct body; [contradiction | discriminate]. }
      rewrite Hdec. eexists. split; [intros h'; reflexivity |].
      split; [reflexivity |].
      intros resp t. apply Request_makeResponse_error_500.
  - reflexivity.
  - intros body c Hne Hdec. unfold HandleRequest.
    destruct (decide (length body = 0%nat)) as [Hl|_].
    { destruct body; [contradiction | discriminate]. }
    rewrite Hdec. reflexivity.
Qed.

Lemma HandleRequest_body_witness :
  exists x : error,
    (HandleRequest Z (inl (bytes_of "{")) (fun _ => inr (errors_New "unexpected end of JSON input"))
       (fun _ => Return (ret_Result OK))).1 = Return (ret_value (of_error x))
    /\ forall resp t,
         Request_makeResponse 0 render_v render_Problem range_sorted defaultProjectError
           render_URL rq_renders (ret_value (of_error x)) = (Return resp, t) ->
         StatusCode resp = 500.
Proof.
  destruct (HandleRequest_body Z 0 render_v render_Problem range_sorted
              defaultProjectError render_URL
              (fun _ => inr (errors_New "unexpected end of JSON input"))
              (fun _ => Return (ret_Result OK)) rq_renders) as [Hfail _].
  destruct (Hfail (inl (bytes_of "{"))) as (x & Hx & _ & H500).
  { right. eexists _, _. split; [reflexivity |]. split; [discriminate | reflexivity]. }
  exists x. split; [apply Hx | exact H500].
Defined.

(** X19.  [StrictRequest] and [HandleRequest] of package jsonapi, with the
    dispatcher.  In strict mode an empty body, and a body the decoder
    refuses for an unknown field, are answered without calling the handler
    function by a 400 Error that wraps [ErrBodyRequired] and
    [ErrUnexpectedField]: the response has status 400 when the projection of
    the Error marshals.  Any other decoding failure, in either mode, gives
    the [error] that wraps [ErrDecoder] and the error of the decoder, in
    that order, so that [errors.Is] finds both in it; it is answered with
    status 500.  A body that cannot be read gives the [error] that wraps
    [ErrErrorReadingRequestBody] and the error of the read, and the body is
    left as it was.  In all these cases the handler function is not called.
    Without strict mode an empty body calls the handler function with
    nil. *)
Theorem jsonapi_handle_body
    (T : Type) (ErrDecoder : error)
    (nowUTC : time_Time) (fmt_v : any -> string) (fmt_Problem : Problem -> string)
    (range : gmap string any -> list (string * any))
    (ProjectError : ErrorInfo -> outcome any) (URL_String : URL -> string)
    (decode : bool -> list Byte.byte -> T + error)
    (h : option T -> outcome returned) (rq : Request) :
  let answers (v : returned) (status : Z) :=
    forall resp t,
      Request_makeResponse nowUTC fmt_v fmt_Problem range ProjectError URL_String
        rq v = (Return resp, t) ->
      (forall p merr, ev_Marshal p (inr merr) ∉ t) ->
      StatusCode resp = status in
  (exists e400,
     jsonapi_StrictRequest nowUTC T ErrDecoder (inl []) decode h
       = (Return (ret_Error e400), Some [])
     /\ err e400 = Some ErrBodyRequired
     /\ Error_statusCode e400 = 400
     /\ answers (ret_Error e400) 400)
  /\ (forall body e,
        body <> [] -> decode true body = inr e ->
        String.prefix "json: unknown field" (error_Error e) = true ->
        exists e400,
          jsonapi_StrictRequest nowUTC T ErrDecoder (inl body) decode h
            = (Return (ret_Error e400), Some body)
          /\ err e400 =
               Some (fmt_Errorf (error_Error ErrUnexpectedField ++ ": "
                                   ++ error_Error e)
                       [ErrUnexpectedField; e])
          /\ (exists w, err e400 = Some w
                        /\ errors_Is w (error_Error ErrUnexpectedField) = true)
          /\ Error_statusCode e400 = 400
          /\ answers (ret_Error e400) 400)
  /\ (forall strict body e,
        body <> [] -> decode strict body = inr e ->
        String.prefix "json: unknown field" (error_Error e) = false ->
        let x := fmt_Errorf (error_Error ErrDecoder ++ ": " ++ error_Error e)
                   [ErrDecoder; e] in
        jsonapi_handle nowUTC T ErrDecoder (inl body) strict decode h
          = (Return (ret_value (of_error x)), Some body)
        /\ (forall target,
              errors_Is ErrDecoder target = true \/ errors_Is e target = true ->
              errors_Is x target = true)
        /\ answers (ret_value (of_error x)) 500)
  /\ (forall strict e,
        let x := fmt_Errorf (error_Error ErrErrorReadingRequestBody ++ ": "
                               ++ error_Error e)
                   [ErrErrorReadingRequestBody; e] in
        jsonapi_handle nowUTC T ErrDecoder (inr e) strict decode h
          = (Return (ret_value (of_error x)), None)
        /\ errors_Is x (error_Error ErrErrorReadingRequestBody) = true
        /\ answers (ret_value (of_error x)) 500)
  /\ jsonapi_HandleRequest nowUTC T ErrDecoder (inl []) decode h = (h None, Some []).
Proof.
  intros answers.
  assert (H400 : forall e, Error_statusCode e = 400 -> answers (ret_Error e) 400).
  { intros e Hsc resp t Hrun Hok.
    destruct (Request_makeResponse_Error_400 _ _ _ _ _ _ _ _ _ _ Hsc Hrun)
      as [(p & body & _ & Hst)|(p & merr & t' & -> & _)]; [exact Hst |].
    exfalso. apply (Hok p merr). left. }
  split; [| split; [| split; [| split]]].
  - eexists. split; [reflexivity |]. split; [reflexivity |].
    split; [reflexivity |]. apply H400. reflexivity.
  - intros body e Hne Hdec Hpre.
    unfold jsonapi_StrictRequest, jsonapi_handle.
    destruct (decide (length body = 0%nat)) as [Hl|_].
    { destruct body; [contradiction | discriminate]. }
    rewrite Hdec, Hpre. eexists. split; [reflexivity |].
    split; [reflexivity |]. split.
    + eexists. split; reflexivity.
    + split; [reflexivity |]. apply H400. reflexivity.
  - intros strict body e Hne Hdec Hpre x. unfold jsonapi_handle.
    destruct (decide (length body = 0%nat)) as [Hl|_].
    { destruct body; [contradiction | discriminate]. }
    rewrite Hdec, Hpre. split; [reflexivity |]. split.
    + intros target [Ht|Ht]; unfold x; cbn [errors_Is]; rewrite Ht;
        rewrite ?orb_true_r; reflexivity.
    + intros resp t Hrun _. eapply Request_makeResponse_error_500. exact Hrun.
  - intros strict e x. split; [reflexivity |]. split; [reflexivity |].
    intros resp t Hrun _. eapply Request_makeResponse_error_500. exact Hrun.
  - reflexivity.
Qed.

Lemma jsonapi_handle_body_witness :
  exists e400,
    jsonapi_StrictRequest 0 Z (errors_New "decoder error") (inl [])
        (fun _ _ => inl 0) (fun _ => Return (ret_Result OK))
      = (Return (ret_Error e400), Some [])
    /\ err e400 = Some ErrBodyRequired
    /\ Error_statusCode e400 = 400
    /\ forall resp t,
         Request_makeResponse 0 render_v render_Problem range_sorted defaultProjectError
           render_URL rq_renders (ret_Error e400) = (Return resp, t) ->
         (forall p merr, ev_Marshal p (inr merr) ∉ t) ->
         StatusCode resp = 400.
Proof.
  exact (proj1 (jsonapi_handle_body Z (errors_New "decoder error") 0 render_v
                  render_Problem range_sorted defaultProjectError render_URL
                  (fun _ _ => inl 0) (fun _ => Return (ret_Result OK)) rq_renders)).
Defined.

(** ** The default projection and its XML form *)

(** Copying the entries of a map into an empty one gives the map back,
    in whatever order they are visited. *)
Lemma assign_all_clone (range : gmap string any -> list (string * any))
    (m : gmap string any) :
  (forall m0 : gmap string any, range m0 ≡ₚ map_to_list m0) ->
  assign_all ∅ (range m) = m.
Proof.
  intros Hrange. apply map_eq. intros k.
  assert (Hnd : NoDup (range m).*1).
  { rewrite (Hrange m). apply NoDup_fst_map_to_list. }
  rewrite assign_all_lookup by exact Hnd.
  rewrite <- (list_to_map_proper (map_to_list m) (range m))
    by (apply NoDup_fst_map_to_list || (symmetry; apply Hrange)).
  rewrite list_to_map_to_list.
  destruct (m !! k); [reflexivity | apply lookup_empty].
Qed.

(** X20.  With the default projection, the body of an error response
    agrees with the response and the inbound request: it carries the
    status code of the status line (500 for an Error without one) with its
    standard text, the path and query of the inbound request, the time
    stamp of the Error or else the current time, the help text, and as
    additional members exactly the properties of the Error (none when
    there are no properties).  Its message is the text of the wrapped
    error, then the message of the Error, whichever are present. *)
Theorem defaultProjectError_body
    (nowUTC : time_Time) (range : gmap string any -> list (string * any))
    (e : Error) (rq : Request) (hr : http_Request) (u : URL) :
  (forall m0 : gmap string any, range m0 ≡ₚ map_to_list m0) ->
  Request_Request rq = Some hr ->
  http_URL hr = Some u ->
  Error_statusCode e = 0 \/ 400 <= Error_statusCode e <= 599 ->
  exists (pe : errorResponse) (e' : Error) (resp : Response) (t : list event),
    makeErrorResponse nowUTC range defaultProjectError e rq =
      (Return (e', resp),
       ev_Marshal (of_errorResponse pe) (MarshalContent rq (of_errorResponse pe)) :: t)
    /\ (t = [] -> StatusCode resp = er_Status pe)
    /\ er_Status pe = (if decide (Error_statusCode e = 0) then 500
                       else Error_statusCode e)
    /\ er_Error pe = http_StatusText (er_Status pe)
    /\ er_Path pe = URL_Path u
    /\ er_Query pe = URL_RawQuery u
    /\ er_Timestamp pe = (if decide (timeStamp e = 0) then nowUTC else timeStamp e)
    /\ er_Help pe = default "" (help e)
    /\ er_Message pe =
         match err e, default "" (message e) with
         | Some w, "" => error_Error w
         | Some w, msg => error_Error w ++ ": " ++ msg
         | None, msg => msg
         end
    /\ er_Additional pe =
         match properties e with
         | Some m => if decide (m = ∅) then None else Some m
         | None => None
         end.
Proof.
  intros Hrange Hrq Hurl Hsc.
  set (e1 := {| err := err e; help := help e; message := message e;
                request := Request_Request rq;
                Error_statusCode :=
                  coalesce [Error_statusCode e; http_StatusInternalServerError];
                timeStamp := coalesce [timeStamp e; nowUTC];
                properties := properties e; Error_headers := Error_headers e |}).
  destruct (defaultProjectError (Error_info range e1)) as [p|v] eqn:Hp.
  2:{ unfold defaultProjectError in Hp. cbn [Error_info ei_Request e1 request] in Hp.
      rewrite Hrq, Hurl in Hp. discriminate. }
  pose proof (makeErrorResponse_returns nowUTC range defaultProjectError e rq p Hsc Hp)
    as Hrun.
  unfold defaultProjectError in Hp. cbn [Error_info ei_Request e1 request] in Hp.
  rewrite Hrq, Hurl in Hp. injection Hp as <-.
  match type of Hrun with
  | context [MarshalContent rq (of_errorResponse ?x)] => set (pe := x) in *
  end.
  exists pe.
  assert (Hfields :
    er_Status pe = (if decide (Error_statusCode e = 0) then 500 else Error_statusCode e)
    /\ er_Error pe = http_StatusText (er_Status pe)
    /\ er_Path pe = URL_Path u
    /\ er_Query pe = URL_RawQuery u
    /\ er_Timestamp pe = (if decide (timeStamp e = 0) then nowUTC else timeStamp e)
    /\ er_Help pe = default "" (help e)
    /\ er_Message pe =
         match err e, default "" (message e) with
         | Some w, "" => error_Error w
         | Some w, msg => error_Error w ++ ": " ++ msg
         | None, msg => msg
         end
    /\ er_Additional pe =
         match properties e with
         | Some m => if decide (m = ∅) then None else Some m
         | None => None
         end).
  { unfold pe.
    cbn [er_Status er_Error er_Path er_Query er_Timestamp er_Help er_Message
         er_Additional ei_StatusCode ei_TimeStamp ei_Help ei_Message ei_Err
         ei_Properties err help message Error_statusCode timeStamp properties].
    split; [apply coalesce_status_default |].
    split; [reflexivity |]. split; [reflexivity |]. split; [reflexivity |].
    split.
    { cbn [coalesce]. change (@zero time_Time _) with 0.
      destruct (decide (timeStamp e = 0)) as [Ht|Ht]; [| reflexivity].
      destruct (decide (nowUTC = 0)) as [->|_]; reflexivity. }
    split; [destruct (help e); reflexivity |].
    split.
    { destruct (err e) as [w|]; destruct (message e) as [msg|]; cbn [ifNotNil default].
      - destruct (decide (msg = "")) as [->|Hne]; [reflexivity |].
        destruct msg; [contradiction | reflexivity].
      - destruct (decide (zero = "")) as [_|Hne]; [reflexivity |].
        exfalso. apply Hne. reflexivity.
      - reflexivity.
      - reflexivity. }
    destruct (properties e) as [m|]; [| reflexivity].
    destruct (decide (0 < size m)%nat) as [Hpos|Hzero].
    - cbn [len_map]. rewrite (assign_all_clone range m Hrange).
      destruct (decide (0 < size m)%nat) as [_|Hn]; [| contradiction].
      destruct (decide (m = ∅)) as [->|_]; [| reflexivity].
      rewrite map_size_empty in Hpos. lia.
    - cbn [len_map].
      destruct (decide (0 < 0)%nat) as [Hn|_]; [lia |].
      destruct (decide (m = ∅)) as [_|Hne]; [reflexivity |].
      exfalso. apply Hne. apply map_size_empty_inv. lia. }
  destruct (MarshalContent rq (of_errorResponse pe)) as [body|merr] eqn:Hm;
    eexists _, _, _; (split; [exact Hrun |]); (split; [| exact Hfields]).
  - intros _. cbn [StatusCode e1 Error_statusCode].
    destruct Hfields as [-> _]. apply coalesce_status_default.
  - intros [=].
Qed.

Lemma defaultProjectError_body_witness :
  exists (pe : errorResponse) (e' : Error) (resp : Response) (t : list event),
    makeErrorResponse 0 range_sorted defaultProjectError error_404 rq_renders =
      (Return (e', resp),
       ev_Marshal (of_errorResponse pe)
         (MarshalContent rq_renders (of_errorResponse pe)) :: t)
    /\ er_Status pe = 404
    /\ er_Error pe = "Not Found"
    /\ er_Path pe = "/path".
Proof.
  destruct (defaultProjectError_body 0 range_sorted error_404 rq_renders inbound
              {| URL_Scheme := ""; URL_Host := ""; URL_Path := "/path";
                 URL_RawQuery := "" |})
    as (pe & e' & resp & t & Hrun & _ & Hst & Herr & Hpath & _).
  - intros m. reflexivity.
  - reflexivity.
  - reflexivity.
  - right. cbn. lia.
  - exists pe, e', resp, t. split; [exact Hrun |].
    split; [rewrite Hst; reflexivity |].
    split; [rewrite Herr, Hst; reflexivity | exact Hpath].
Defined.

Lemma encode_tokens_all (xmlEncodeToken : xml_Token -> option error)
    (tokens : list xml_Token) :
  (forall t, t ∈ tokens -> xmlEncodeToken t = None) ->
  encode_tokens xmlEncodeToken tokens = (tokens, None).
Proof.
  induction tokens as [|t rest IH]; intros Hall; [reflexivity |].
  cbn [encode_tokens]. rewrite (Hall t) by left.
  rewrite IH by (intros x Hx; apply Hall; now right). reflexivity.
Qed.

Lemma encode_tokens_stop (xmlEncodeToken : xml_Token -> option error)
    (pre : list xml_Token) (t : xml_Token) (post : list xml_Token) (e : error) :
  (forall x, x ∈ pre -> xmlEncodeToken x = None) ->
  xmlEncodeToken t = Some e ->
  encode_tokens xmlEncodeToken (pre ++ t :: post) = ((pre ++ [t])%list, Some e).
Proof.
  induction pre as [|x pre IH]; intros Hall Ht.
  - cbn [app encode_tokens]. rewrite Ht. reflexivity.
  - cbn [app encode_tokens]. rewrite (Hall x) by left.
    rewrite IH by (try (intros y Hy; apply Hall; now right); exact Ht). reflexivity.
Qed.

(** The sorted keys of a map do not depend on the order in which the map
    is visited. *)
Lemma sort_Strings_range (range : gmap string any -> list (string * any))
    (m : gmap string any) :
  (forall m0 : gmap string any, range m0 ≡ₚ map_to_list m0) ->
  sort_Strings (range m).*1 = sort_Strings (map_to_list m).*1.
Proof.
  intros Hrange. unfold sort_Strings.
  apply (Sorted_unique String.le); try apply _.
  - apply Sorted_merge_sort. apply _.
  - apply Sorted_merge_sort. apply _.
  - rewrite !merge_sort_Permutation. rewrite (Hrange m). reflexivity.
Qed.

(** X21.  The XML form of the additional properties.  The encoder is
    handed the start element, then for every entry of the map, in
    ascending order of the keys, a start element named as the key, the
    value rendered as text and the end element, then the closing end
    element.  When the encoder accepts every token the result is that of
    flushing it; at the first token it refuses, encoding stops and its
    error is returned, without a flush.  The order in which the map is
    visited does not show in the result. *)
Theorem errorProps_MarshalXML_sorted
    (fmt_v : any -> string) (range : gmap string any -> list (string * any))
    (xmlEncodeToken : xml_Token -> option error) (flush : option error)
    (m : gmap string any) (start : string) :
  (forall m0 : gmap string any, range m0 ≡ₚ map_to_list m0) ->
  (exists entries : list (string * any),
     entries ≡ₚ map_to_list m
     /\ Sorted String.le entries.*1
     /\ let tokens :=
          ([xml_StartElement start]
           ++ concat (map (fun kv : string * any =>
                             [ xml_StartElement kv.1;
                               xml_CharData (fmt_v kv.2);
                               xml_EndElement kv.1 ]) entries)
           ++ [xml_EndElement start])%list in
        ((forall t, t ∈ tokens -> xmlEncodeToken t = None) ->
         errorProps_MarshalXML fmt_v range xmlEncodeToken flush m start
           = (tokens, flush))
        /\ (forall pre t post e,
              tokens = (pre ++ t :: post)%list ->
              (forall x, x ∈ pre -> xmlEncodeToken x = None) ->
              xmlEncodeToken t = Some e ->
              errorProps_MarshalXML fmt_v range xmlEncodeToken flush m start
                = ((pre ++ [t])%list, Some e)))
  /\ (forall range' : gmap string any -> list (string * any),
        (forall m0 : gmap string any, range' m0 ≡ₚ map_to_list m0) ->
        errorProps_MarshalXML fmt_v range' xmlEncodeToken flush m start
          = errorProps_MarshalXML fmt_v range xmlEncodeToken flush m start).
Proof.
  intros Hrange. split.
  - set (keys := sort_Strings (range m).*1).
    set (entry := fun k : string => (k, default of_nil (m !! k))).
    exists (entry <$> keys).
    assert (Hfst : (entry <$> keys).*1 = keys).
    { rewrite <- list_fmap_compose. apply list_fmap_id. }
    split; [| split].
    + assert (Hkeys : keys ≡ₚ (map_to_list m).*1).
      { unfold keys, sort_Strings. rewrite merge_sort_Permutation, (Hrange m).
        reflexivity. }
      rewrite Hkeys. rewrite <- list_fmap_compose.
      assert (Heq : (entry ∘ fst) <$> map_to_list m = map_to_list m).
      { rewrite <- (list_fmap_id (map_to_list m)) at 2. apply list_fmap_ext.
        intros i [k v] Hi. apply list_elem_of_lookup_2 in Hi.
        apply elem_of_map_to_list in Hi. unfold entry. cbn. rewrite Hi. reflexivity. }
      rewrite Heq. reflexivity.
    + rewrite Hfst. apply Sorted_merge_sort. apply _.
    + cbv zeta.
      assert (Htok :
        map (fun kv : string * any =>
               [ xml_StartElement kv.1; xml_CharData (fmt_v kv.2);
                 xml_EndElement kv.1 ]) (entry <$> keys)
        = map (fun key =>
                 let value := default of_nil (m !! key) in
                 [ xml_StartElement key; xml_CharData (fmt_v value);
                   xml_EndElement key ]) keys).
      { generalize keys. intros l. induction l as [|k l IH]; [reflexivity |].
        cbn [fmap list_fmap map]. cbn [fmap] in IH. rewrite IH. reflexivity. }
      rewrite Htok. unfold errorProps_MarshalXML. fold keys. split.
      * intros Hall. rewrite encode_tokens_all by exact Hall. reflexivity.
      * intros pre t post e -> Hpre Ht.
        rewrite (encode_tokens_stop _ pre t post e Hpre Ht). reflexivity.
  - intros range' Hrange'. unfold errorProps_MarshalXML.
    rewrite (sort_Strings_range range m Hrange),
            (sort_Strings_range range' m Hrange'). reflexivity.
Qed.

Lemma errorProps_MarshalXML_sorted_witness :
  exists entries : list (string * any),
    entries ≡ₚ map_to_list ({[ "b" := of_int 2; "a" := of_string "x" ]} : gmap string any)
    /\ Sorted String.le entries.*1
    /\ errorProps_MarshalXML render_v range_sorted (fun _ => None) None
         {[ "b" := of_int 2; "a" := of_string "x" ]} "additional" =
       (([xml_StartElement "additional"]
         ++ concat (map (fun kv : string * any =>
                           [ xml_StartElement kv.1;
                             xml_CharData (render_v kv.2);
                             xml_EndElement kv.1 ]) entries)
         ++ [xml_EndElement "additional"])%list, None).
Proof.
  destruct (errorProps_MarshalXML_sorted render_v range_sorted (fun _ => None) None
              {[ "b" := of_int 2; "a" := of_string "x" ]} "additional"
              (fun m => reflexivity (map_to_list m)))
    as [(entries & Hperm & Hsorted & Hok & _) _].
  exists entries. split; [exact Hperm |]. split; [exact Hsorted |].
  apply Hok. reflexivity.
Defined.

(** ** Setting several headers at once *)

Lemma headers_setAll_loop_lookup (entries : list (string * any)) (m : gmap string any) :
  NoDup ((http_CanonicalHeaderKey ∘ fst) <$> entries) ->
  exists m' : gmap string any,
    headers_setAll_loop (Some m) entries = Return (Some m')
    /\ (forall k v, (k, v) ∈ entries -> m' !! http_CanonicalHeaderKey k = Some v)
    /\ (forall ck, ck ∉ (http_CanonicalHeaderKey ∘ fst) <$> entries -> m' !! ck = m !! ck).
Proof.
  revert m. induction entries as [|[k0 v0] rest IH]; intros m Hnd.
  - exists m. split; [reflexivity |]. split; [| reflexivity].
    intros k v Hin. inversion Hin.
  - cbn [fmap list_fmap] in Hnd. apply NoDup_cons in Hnd as [Hnotin Hnd].
    change (http_CanonicalHeaderKey k0 ∉ (http_CanonicalHeaderKey ∘ fst) <$> rest)
      in Hnotin.
    cbn [headers_setAll_loop map_assign fst snd].
    destruct (IH (<[http_CanonicalHeaderKey k0 := v0]> m) Hnd) as (m' & Hrun & Hin & Hout).
    exists m'. split; [exact Hrun |]. split.
    + intros k v Hkv. apply elem_of_cons in Hkv as [[= -> ->]|Hkv].
      * rewrite (Hout _ Hnotin). apply lookup_insert_eq.
      * apply Hin. exact Hkv.
    + intros ck Hck. cbn [fmap list_fmap] in Hck.
      apply not_elem_of_cons in Hck as [Hne Hck].
      change (ck <> http_CanonicalHeaderKey k0) in Hne.
      rewrite (Hout ck Hck). apply lookup_insert_ne. congruence.
Qed.

(** X22.  [WithHeaders] with headers whose keys stay distinct when they
    are canonicalised.  On an Error it returns, making the headers map when
    there is none; on a Result whose headers map is not nil it returns as
    well.  In the headers map it leaves, every header given is stored under
    its canonical key, and every other key holds what it held before. *)
Theorem WithHeaders_lookup
    (range : gmap string any -> list (string * any))
    (hs : gmap string any) :
  (forall m0 : gmap string any, range m0 ≡ₚ map_to_list m0) ->
  (forall k1 k2,
     is_Some (hs !! k1) -> is_Some (hs !! k2) ->
     http_CanonicalHeaderKey k1 = http_CanonicalHeaderKey k2 -> k1 = k2) ->
  forall m : gmap string any,
  exists m' : gmap string any,
    (forall e : Error,
       default ∅ (Error_headers e) = m ->
       Error_WithHeaders range e hs = Return (Error_set_headers e (Some m')))
    /\ (forall r : Result,
          Result_headers r = Some m ->
          Result_WithHeaders range r hs = Return (Result_set_headers r (Some m')))
    /\ (forall k v, hs !! k = Some v -> m' !! http_CanonicalHeaderKey k = Some v)
    /\ (forall ck,
          (forall k, is_Some (hs !! k) -> http_CanonicalHeaderKey k <> ck) ->
          m' !! ck = m !! ck).
Proof.
  intros Hrange Hinj m.
  assert (Hin : forall k v, (k, v) ∈ range hs <-> hs !! k = Some v).
  { intros k v. rewrite (Hrange hs). apply elem_of_map_to_list. }
  assert (Hnd : NoDup ((http_CanonicalHeaderKey ∘ fst) <$> range hs)).
  { rewrite list_fmap_compose. apply NoDup_fmap_2_strong.
    - intros k1 k2 Hk1 Hk2. apply list_elem_of_fmap in Hk1 as ([k1' v1] & -> & H1).
      apply list_elem_of_fmap in Hk2 as ([k2' v2] & -> & H2). cbn [fst].
      apply Hinj; eexists; apply Hin; eassumption.
    - rewrite (Hrange hs). apply NoDup_fst_map_to_list. }
  destruct (headers_setAll_loop_lookup (range hs) m Hnd) as (m' & Hrun & Hset & Hkeep).
  exists m'. split; [| split; [| split]].
  - intros e He. unfold Error_WithHeaders, Error_hasHeaders, headers_setAll.
    assert (Hh : match Error_headers e with Some m0 => Some m0 | None => Some ∅ end
                 = Some m).
    { destruct (Error_headers e); cbn in He; subst; reflexivity. }
    rewrite Hh, Hrun. reflexivity.
  - intros r Hr. unfold Result_WithHeaders. rewrite Hr, Hrun. reflexivity.
  - intros k v Hk. apply Hset. apply Hin. exact Hk.
  - intros ck Hck. apply Hkeep. intros Hmem.
    apply list_elem_of_fmap in Hmem as ([k v] & -> & Hkv).
    apply (Hck k); [eexists; apply Hin; exact Hkv | reflexivity].
Qed.

Lemma WithHeaders_lookup_witness :
  exists m' : gmap string any,
    Result_WithHeaders range_sorted
        (Result_set_headers OK
           (Some {[ "Canonical" := of_string "old value (a)";
                    "Canonicalised" := of_string "old value (b)" ]}))
        {[ "canonicalised" := of_string "new value (b)";
           "new-header" := of_string "new value (c)" ]}
      = Return (Result_set_headers OK (Some m'))
    /\ m' !! "Canonical" = Some (of_string "old value (a)")
    /\ m' !! "Canonicalised" = Some (of_string "new value (b)")
    /\ m' !! "New-Header" = Some (of_string "new value (c)").
Proof.
  destruct (WithHeaders_lookup range_sorted
              {[ "canonicalised" := of_string "new value (b)";
                 "new-header" := of_string "new value (c)" ]}
              (fun m => reflexivity (map_to_list m)))
    with (m := ({[ "Canonical" := of_string "old value (a)";
                   "Canonicalised" := of_string "old value (b)" ]} : gmap string any))
    as (m' & _ & Hres & Hset & Hkeep).
  { intros k1 k2 [v1 H1] [v2 H2].
    apply lookup_insert_Some in H1 as [[<- _]|[_ H1]];
      [| apply lookup_singleton_Some in H1 as [<- _]];
      (apply lookup_insert_Some in H2 as [[<- _]|[_ H2]];
        [| apply lookup_singleton_Some in H2 as [<- _]]);
      vm_compute; congruence. }
  exists m'. split.
  { exact (Hres (Result_set_headers OK
                   (Some {[ "Canonical" := of_string "old value (a)";
                            "Canonicalised" := of_string "old value (b)" ]}))
             eq_refl). }
  split; [| split].
  - rewrite Hkeep; [reflexivity |].
    intros k [v Hk].
    apply lookup_insert_Some in Hk as [[<- _]|[_ Hk]];
      [| apply lookup_singleton_Some in Hk as [<- _]]; vm_compute; congruence.
  - apply (Hset "canonicalised"). reflexivity.
  - apply (Hset "new-header"). reflexivity.
Defined.
